(** * Greedy rule list classifier ([imodels/greedy_rule_list.py])

    A shallow embedding of [GreedyRuleListClassifier]: the impurity
    criteria, the exhaustive split search, the recursive builder [fit] and
    the inference walk [predict_proba] / [predict], followed by the
    properties of the specification that were checked against them.

    Numbers.  numpy's float64 values are modelled as exact rationals
    extended with the IEEE special values (infinities and nan); rounding
    and overflow are not modelled.  nan matters to the control flow of the
    program (the mean of an empty partition, a correlation with a constant
    mask) and is modelled where the source produces it. *)

From Stdlib Require Import List String Ascii ZArith QArith Qreduction.
From Stdlib Require Import Bool Arith Lia Lqa SetoidList DecimalString.
Import ListNotations.

Local Open Scope Z_scope.
Local Open Scope string_scope.
Local Open Scope list_scope.

(** ** Floating-point values *)

Inductive fnum : Type :=
| Fin (q : Q)
| PInf
| NInf
| NaN.

Definition Qlt_bool (a b : Q) : bool := negb (Qle_bool b a).

(** [a / b] for two finite floats, as numpy divides: [0/0] is nan and a
    non-zero value over zero is an infinity. *)
Definition qdiv (a b : Q) : fnum :=
  if Qeq_bool b 0 then
    match (a ?= 0)%Q with
    | Eq => NaN
    | Gt => PInf
    | Lt => NInf
    end
  else Fin (Qred (a / b)).

Definition fsgn (a : fnum) : option comparison :=
  match a with
  | Fin q => Some (q ?= 0)%Q
  | PInf => Some Gt
  | NInf => Some Lt
  | NaN => None
  end.

Definition cmul (c1 c2 : comparison) : comparison :=
  match c1, c2 with
  | Eq, _ | _, Eq => Eq
  | Gt, Gt | Lt, Lt => Gt
  | _, _ => Lt
  end.

Definition finf (c : comparison) : fnum :=
  match c with
  | Gt => PInf
  | Lt => NInf
  | Eq => NaN
  end.

Definition fmul (a b : fnum) : fnum :=
  match a, b with
  | Fin p, Fin q => Fin (Qred (p * q))
  | _, _ =>
      match fsgn a, fsgn b with
      | Some c1, Some c2 => finf (cmul c1 c2)
      | _, _ => NaN
      end
  end.

Definition fadd (a b : fnum) : fnum :=
  match a, b with
  | Fin p, Fin q => Fin (Qred (p + q))
  | NaN, _ | _, NaN => NaN
  | PInf, NInf | NInf, PInf => NaN
  | PInf, _ | _, PInf => PInf
  | NInf, _ | _, NInf => NInf
  end.

Definition fneg (a : fnum) : fnum :=
  match a with
  | Fin q => Fin (Qred (- q))
  | PInf => NInf
  | NInf => PInf
  | NaN => NaN
  end.

Definition fsub (a b : fnum) : fnum := fadd a (fneg b).

(** Comparisons: every comparison with nan is false. *)
Definition fle (a b : fnum) : bool :=
  match a, b with
  | NaN, _ | _, NaN => false
  | Fin p, Fin q => Qle_bool p q
  | NInf, _ => true
  | _, PInf => true
  | _, _ => false
  end.

Definition flt (a b : fnum) : bool :=
  match a, b with
  | NaN, _ | _, NaN => false
  | Fin p, Fin q => Qlt_bool p q
  | PInf, _ => false
  | _, NInf => false
  | _, _ => true
  end.

Definition fge (a b : fnum) : bool := fle b a.
Definition fgt (a b : fnum) : bool := flt b a.

Definition feq (a b : fnum) : bool :=
  match a, b with
  | Fin p, Fin q => Qeq_bool p q
  | PInf, PInf | NInf, NInf => true
  | _, _ => false
  end.

Definition Q_of_nat (n : nat) : Q := inject_Z (Z.of_nat n).

(** The sentinel [1e10] and the default cutoff [0.5] of the split search. *)
Definition sentinel : Q := 10000000000 # 1.
Definition half : Q := 1 # 2.

(** ** One-dimensional arrays of labels *)

Definition qsum (l : list Q) : Q := fold_left (fun s v => Qred (s + v)) l 0%Q.

(** [np.mean(y)]: the mean of an empty array is nan. *)
Definition np_mean (y : list Q) : fnum := qdiv (qsum y) (Q_of_nat (length y)).

(** [sum(y == c)] and [sum(y != c)]. *)
Definition count_eq (y : list Q) (c : Q) : nat :=
  length (filter (fun v => Qeq_bool v c) y).
Definition count_ne (y : list Q) (c : Q) : nat :=
  length (filter (fun v => negb (Qeq_bool v c)) y).

(** [a[mask]] for a mask of the length of [a], and [a[~mask]]. *)
Fixpoint select {A : Type} (a : list A) (mask : list bool) : list A :=
  match a, mask with
  | v :: a', b :: mask' => if b then v :: select a' mask' else select a' mask'
  | _, _ => []
  end.

Definition invert (mask : list bool) : list bool := map negb mask.

(** The distinct values of an array in order of first occurrence. *)
Fixpoint unique (l : list Q) : list Q :=
  match l with
  | [] => []
  | v :: r => v :: filter (fun u => negb (Qeq_bool u v)) (unique r)
  end.

(** [all(x == items[0] for x in items)] *)
Definition all_same (items : list Q) : bool :=
  match items with
  | [] => true
  | v0 :: _ => forallb (fun v => Qeq_bool v v0) items
  end.

(** ** What the interpreter and the numeric libraries supply

    Three things the module relies on are not fixed by its text: the order
    in which a Python [set] is iterated, the logarithm [math.log(p, 2)] and
    the correlation coefficient of [np.corrcoef] where it is defined (both
    irrational in general).  The development is parametric in them. *)

Class Runtime : Type := {
  set_iter : list Q -> list Q;
  set_iter_sound : forall l v, In v (set_iter l) -> In v l;
  set_iter_complete :
    forall l v, In v l -> exists u, In u (set_iter l) /\ (u == v)%Q;
  set_iter_distinct : forall l, NoDupA Qeq (set_iter l);
  math_log : Q -> Q -> Q;
  pearson : list Q -> list Q -> Q
}.

(** ** Exceptions and printed output

    Code of the split search may print and may raise: a computation yields
    the lines printed so far and either a value or an exception.
    [NumpyError] is the failure of numpy on the masks [x[:, None] < None]
    that [fit] builds when [find_best_split] found no column. *)

Inductive exn : Type :=
| AttributeError
| UnboundLocalError
| TypeError
| IndexError
| KeyError
| NumpyError.

Inductive result (A : Type) : Type :=
| Ok (a : A)
| Raise (e : exn).
Arguments Ok {A} a.
Arguments Raise {A} e.

Definition W (A : Type) : Type := (list string * result A)%type.

Definition ret {A : Type} (a : A) : W A := ([], Ok a).
Definition raise {A : Type} (e : exn) : W A := ([], Raise e).
Definition print (s : string) : W unit := ([s], Ok tt).

Definition bind {A B : Type} (m : W A) (k : A -> W B) : W B :=
  match m with
  | (o, Ok a) => let (o', r) := k a in (o ++ o', r)
  | (o, Raise e) => (o, Raise e)
  end.

Notation "x <- m ;; k" := (bind m (fun x => k))
  (at level 61, m at next level, right associativity).
Notation "m ;;; k" := (bind m (fun _ => k))
  (at level 61, right associativity).

(** ** The classifier instance *)

(** A node of the rule list: the dict of a leaf has the keys [val] and
    [num_pts], the dict of a split has eight keys. *)
Inductive rule : Type :=
| Leaf (val : fnum) (num_pts : nat)
| Split (col : string) (index_col : nat) (cutoff : Q) (val : fnum)
        (flip : bool) (val_right : fnum) (num_pts : nat) (num_pts_right : nat).

Definition rule_val (r : rule) : fnum :=
  match r with
  | Leaf v _ => v
  | Split _ _ _ v _ _ _ _ => v
  end.

(** The attributes of an instance.  [rules_] does not exist until [fit]
    assigns it; [class_weight] is [None] or a dict from class to weight
    (its items in insertion order). *)
Record classifier : Type := mkClassifier {
  depth : Z;
  max_depth : Z;
  feature_names : option (list string);
  class_weight : option (list (Q * Q));
  criterion : string;
  rules_ : option (list rule)
}.

(** [GreedyRuleListClassifier(max_depth, class_weight, criterion)] *)
Definition init (max_depth : Z) (class_weight : option (list (Q * Q)))
    (criterion : string) : classifier :=
  mkClassifier 0 max_depth None class_weight criterion None.

Section Impurity.
Context `{RT : Runtime}.

(** [np.corrcoef(a, b)[0, 1]], a function of numpy: nan (0/0) when either
    argument has zero variance, and the coefficient [pearson] otherwise. *)
Definition np_corrcoef (a b : list Q) : fnum :=
  if all_same a || all_same b then NaN else Fin (pearson a b).

Definition gini_criterion (y : list Q) : Q :=
  let n := length y in
  fold_left
    (fun s c =>
       let n_c := count_eq y c in
       let p_c := Qred (Q_of_nat n_c / Q_of_nat n) in
       Qred (s + Qred (p_c * Qred (1 - p_c))))
    (set_iter y) 0%Q.

Definition entropy_func (p : Q) : Q := Qred (- p * math_log p 2).

Definition entropy_from_counts (c1 c2 : nat) : Q :=
  if (c1 =? 0)%nat || (c2 =? 0)%nat then 0%Q
  else
    let p1 := Qred (Q_of_nat c1 * 1 / Q_of_nat (c1 + c2)) in
    let p2 := Qred (Q_of_nat c2 * 1 / Q_of_nat (c1 + c2)) in
    Qred (entropy_func p1 + entropy_func p2).

Definition entropy_criterion (y : list Q) : Q :=
  let n := length y in
  fold_left
    (fun s c =>
       let weight := Qred (Q_of_nat (count_eq y c) / Q_of_nat n) in
       Qred (s + Qred (weight * entropy_from_counts (count_eq y c) (count_ne y c))))
    (set_iter y) 0%Q.

(** [split_decision.astype(np.int)], [np.int] being the builtin [int]. *)
Definition mask_to_int (split_decision : list bool) : list Q :=
  map (fun b : bool => if b then 1%Q else 0%Q) split_decision.

Definition neg_corr_criterion (split_decision : list bool) (y : list Q)
  : W fnum :=
  let k := length (unique y) in
  if (k <? 2)%nat then ret (Fin 0)
  else
    (if negb (k =? 2)%nat
     then print "y must be binary output for corr criterion"
     else ret tt) ;;;
    let y' :=
      if Qlt_bool (qsum y) (Qred (Q_of_nat (length y) / 2))
      then map (fun v => Qred (1 - v)) y
      else y in
    ret (fmul (Fin (-1)) (np_corrcoef (mask_to_int split_decision) y')).

(** The sample weights: ones, overwritten class by class. *)
Definition sample_weights (cw : option (list (Q * Q))) (y_real : list Q)
  : list Q :=
  match cw with
  | None => map (fun _ => 1%Q) y_real
  | Some items =>
      fold_left
        (fun sw cwt =>
           map (fun p : Q * Q => if Qeq_bool (fst p) (fst cwt) then snd cwt else snd p)
               (combine y_real sw))
        items (map (fun _ => 1%Q) y_real)
  end.

(** The tail of [weighted_criterion] once [criterion_func] is bound: the
    two sides are scored and averaged with the sample weights. *)
Definition weighted_average (self : classifier) (criterion_func : list Q -> Q)
    (split_decision : list bool) (y_real : list Q) : fnum :=
  let s_left := criterion_func (select y_real split_decision) in
  let s_right := criterion_func (select y_real (invert split_decision)) in
  let sw := sample_weights (class_weight self) y_real in
  let tot_weight := qsum sw in
  let weight_left := qdiv (qsum (select sw split_decision)) tot_weight in
  let weight_right :=
    qdiv (qsum (select sw (invert split_decision))) tot_weight in
  fadd (fmul weight_left (Fin s_left)) (fmul weight_right (Fin s_right)).

(** [weighted_criterion]: [None] stands for Python's [None].  With a name
    that is none of the three, the local [criterion_func] is still unbound
    when the left side is scored. *)
Definition weighted_criterion (self : classifier)
    (split_decision : list bool) (y_real : list Q) : W (option fnum) :=
  if negb (length split_decision =? length y_real)%nat then
    print "They have to be the same length" ;;;
    ret None
  else if String.eqb (criterion self) "entropy" then
    ret (Some (weighted_average self entropy_criterion split_decision y_real))
  else if String.eqb (criterion self) "gini" then
    ret (Some (weighted_average self gini_criterion split_decision y_real))
  else if String.eqb (criterion self) "neg_corr" then
    v <- neg_corr_criterion split_decision y_real ;;
    ret (Some v)
  else raise UnboundLocalError.

End Impurity.

(** ** Feature matrices *)

(** A two-dimensional array of shape [(length rows, ncols)]. *)
Record matrix : Type := mkMatrix {
  ncols : nat;
  rows : list (list Q)
}.

(** [x[:, j]], [x.T] (the sequence of its columns) and [x[mask]]. *)
Definition column (x : matrix) (j : nat) : list Q :=
  map (fun r => nth j r 0%Q) (rows x).
Definition transpose (x : matrix) : list (list Q) :=
  map (column x) (seq 0 (ncols x)).
Definition take_rows (x : matrix) (mask : list bool) : matrix :=
  mkMatrix (ncols x) (select (rows x) mask).

Definition enumerate {A : Type} (l : list A) : list (nat * A) :=
  combine (seq 0 (length l)) l.

Section SplitSelector.
Context `{RT : Runtime}.
Variable self : classifier.

(** The loop of [split_on_feature] over the values still to visit.
    Comparing [None] with a float raises a type error. *)
Fixpoint split_loop (col y values : list Q) (min_criterion_val : fnum)
    (cutoff : Q) : W (fnum * Q) :=
  match values with
  | [] => ret (min_criterion_val, cutoff)
  | value :: rest =>
      let y_predict := map (fun v => Qlt_bool v value) col in
      r <- weighted_criterion self y_predict y ;;
      match r with
      | None => raise TypeError
      | Some criterion_val =>
          if fle criterion_val min_criterion_val
          then split_loop col y rest criterion_val value
          else split_loop col y rest min_criterion_val cutoff
      end
  end.

Definition split_on_feature (col y : list Q) : W (fnum * Q) :=
  split_loop col y (set_iter col) (Fin sentinel) half.

(** The loop of [find_best_split] over the columns still to scan, with
    the best column, its cutoff and its value so far. *)
Fixpoint best_loop (cols : list (nat * list Q)) (y : list Q)
    (col : option nat) (cutoff : option Q) (min_criterion_val : fnum)
  : W (option nat * option Q * fnum) :=
  match cols with
  | [] => ret (col, cutoff, min_criterion_val)
  | (i, c) :: rest =>
      r <- split_on_feature c y ;;
      let (criterion_val, cur_cutoff) := r : fnum * Q in
      if feq criterion_val (Fin 0)
      then ret (Some i, Some cur_cutoff, criterion_val)
      else if fle criterion_val min_criterion_val
      then best_loop rest y (Some i) (Some cur_cutoff) criterion_val
      else best_loop rest y col cutoff min_criterion_val
  end.

Definition find_best_split (x : matrix) (y : list Q)
  : W (option nat * option Q * fnum) :=
  best_loop (enumerate (transpose x)) y None None (Fin sentinel).

End SplitSelector.

(** ** The recursive builder *)

Definition string_of_nat (n : nat) : string :=
  NilZero.string_of_uint (Nat.to_uint n).

(** [['feat ' + str(i) for i in range(x.shape[1])]] *)
Definition default_names (n : nat) : list string :=
  map (fun i => String.append "feat " (string_of_nat i)) (seq 0 n).

Definition with_names (self : classifier) (names : option (list string))
  : classifier :=
  mkClassifier (depth self) (max_depth self) names (class_weight self)
               (criterion self) (rules_ self).

(** [self.depth += 1; self.rules_ = par_node] *)
Definition publish (self : classifier) (par_node : list rule) : classifier :=
  mkClassifier (depth self + 1) (max_depth self) (feature_names self)
               (class_weight self) (criterion self) (Some par_node).

(** The head of [fit]: [self.feature_names] is defaulted when it is still
    [None] and overwritten by the argument when one is given.  Inputs are
    plain arrays, so the pandas branches are not taken. *)
Definition set_feature_names (x : matrix) (feature_names_arg : option (list string))
    (self : classifier) : classifier :=
  let self1 :=
    match feature_names self with
    | None => with_names self (Some (default_names (ncols x)))
    | Some _ => self
    end in
  match feature_names_arg with
  | Some names => with_names self1 (Some names)
  | None => self1
  end.

Definition names_of (self : classifier) : list string :=
  match feature_names self with
  | Some names => names
  | None => []
  end.

Section Fit.
Context `{RT : Runtime}.

(** [fit] with [verbose=False].  The recursion descends one level per
    split, so it is written over the number of levels left,
    [max_depth - depth]: the third base case, [depth >= self.max_depth],
    is the case of no level left ([fit_unfold] states the equation of the
    source for it).  The instance is threaded through; an exception leaves
    it as it was when raised. *)
Fixpoint fit_rec (levels : nat) (x : matrix) (y : list Q)
    (feature_names_arg : option (list string)) (self : classifier)
  : W (list rule) * classifier :=
  let self := set_feature_names x feature_names_arg self in
  if (length y =? 0)%nat then (ret [], self)
  else if all_same y then (ret [Leaf (Fin (hd 0%Q y)) (length y)], self)
  else
    match levels with
    | O => (ret [], self)
    | S levels' =>
        match find_best_split self x y with
        | (out, Raise e) => ((out, Raise e), self)
        | (out, Ok (Some col, Some cutoff, criterion_val)) =>
            let lt_mask := map (fun v => Qlt_bool v cutoff) (column x col) in
            let ge_mask := map (fun v => Qle_bool cutoff v) (column x col) in
            if negb (length lt_mask =? length y)%nat
            then ((out, Raise IndexError), self)
            else
              let flip := fgt (np_mean (select y lt_mask))
                              (np_mean (select y ge_mask)) in
              let y_left := if flip then select y ge_mask else select y lt_mask in
              let y_right := if flip then select y lt_mask else select y ge_mask in
              let x_left :=
                if flip then take_rows x ge_mask else take_rows x lt_mask in
              match nth_error (names_of self) col with
              | None => ((out, Raise IndexError), self)
              | Some name =>
                  let node :=
                    Split name col cutoff (np_mean y) flip (np_mean y_right)
                          (length y) (length y_right) in
                  match fit_rec levels' x_left y_left None self with
                  | ((out', Raise e), self') => ((out ++ out', Raise e), self')
                  | ((out', Ok rest), self') =>
                      let par_node := node :: rest in
                      ((out ++ out', Ok par_node), publish self' par_node)
                  end
              end
        | (out, Ok _) => ((out, Raise NumpyError), self)
        end
    end.

(** [self.fit(x, y, depth, feature_names)] *)
Definition fit (x : matrix) (y : list Q) (depth : Z)
    (feature_names_arg : option (list string)) (self : classifier)
  : W (list rule) * classifier :=
  fit_rec (Z.to_nat (max_depth self - depth)) x y feature_names_arg self.

End Fit.

(** ** Inference *)

(** The inner loop of [predict_proba] for one row [x]: [probs[i]] starts
    at zero; the last rule stores its [val]; an earlier rule stores its
    [val] and leaves the loop when its test holds.  An earlier rule that
    is a leaf has no key [index_col]. *)
Fixpoint walk (rules : list rule) (x : list Q) : result fnum :=
  match rules with
  | [] => Ok (Fin 0)
  | [r] => Ok (rule_val r)
  | r :: rest =>
      match r with
      | Leaf _ _ => Raise KeyError
      | Split _ index_col cutoff val _ _ _ _ =>
          match nth_error x index_col with
          | None => Raise IndexError
          | Some v => if Qle_bool cutoff v then Ok val else walk rest x
          end
      end
  end.

Fixpoint walk_rows (rules : list rule) (X : list (list Q))
  : result (list fnum) :=
  match X with
  | [] => Ok []
  | x :: X' =>
      match walk rules x with
      | Raise e => Raise e
      | Ok p =>
          match walk_rows rules X' with
          | Raise e => Raise e
          | Ok ps => Ok (p :: ps)
          end
      end
  end.

(** [predict_proba]: [self.rules_] is read inside the loop over the rows,
    so an instance without the attribute fails at the first row. *)
Definition predict_proba (self : classifier) (X : matrix)
  : result (list (fnum * fnum)) :=
  match rows X with
  | [] => Ok []
  | _ :: _ =>
      match rules_ self with
      | None => Raise AttributeError
      | Some rules =>
          match walk_rows rules (rows X) with
          | Raise e => Raise e
          | Ok probs => Ok (map (fun p => (fsub (Fin 1) p, p)) probs)
          end
      end
  end.

(** [(proba > 0.5).argmax(axis=1)] on a row of two entries: the index of
    the first [True], or 0 when there is none. *)
Definition argmax_gt_half (p : fnum * fnum) : nat :=
  if fgt (fst p) (Fin half) then 0%nat
  else if fgt (snd p) (Fin half) then 1%nat
  else 0%nat.

Definition predict (self : classifier) (X : matrix) : result (list nat) :=
  match predict_proba self X with
  | Raise e => Raise e
  | Ok proba => Ok (map argmax_gt_half proba)
  end.

(** ** A runtime to run examples

    Sets are iterated in order of first occurrence, which for the few
    small non-negative integers of the examples below is the order of
    CPython (ascending). *)

Lemma unique_In_filter (l : list Q) (v : Q) : In v (unique l) -> In v l.
Proof.
  induction l as [|a l IH]; simpl; [tauto|].
  intros [->|H]; [now left|].
  apply filter_In in H. right. apply IH, H.
Qed.

Lemma unique_complete (l : list Q) (v : Q) :
  In v l -> exists u, In u (unique l) /\ (u == v)%Q.
Proof.
  induction l as [|a l IH]; simpl; [tauto|].
  intros [->|H].
  - exists v. split; [now left|reflexivity].
  - destruct (IH H) as (u & Hu & Huv).
    destruct (Qeq_bool u a) eqn:E.
    + exists a. split; [now left|].
      apply Qeq_bool_iff in E. now rewrite <- E.
    + exists u. split; [|exact Huv].
      right. apply filter_In. split; [exact Hu|now rewrite E].
Qed.

Lemma unique_distinct (l : list Q) : NoDupA Qeq (unique l).
Proof.
  induction l as [|a l IH]; simpl; constructor.
  - intros H. apply InA_alt in H. destruct H as (u & Hau & Hu).
    apply filter_In in Hu. destruct Hu as [_ Hu].
    apply negb_true_iff in Hu.
    assert (Qeq_bool u a = true) by (apply Qeq_bool_iff; now symmetry).
    congruence.
  - clear -IH. induction IH as [|u r Hu Hr IHr]; simpl; [constructor|].
    destruct (negb (Qeq_bool u a)); [|exact IHr].
    constructor; [|exact IHr].
    intros H. apply Hu. apply InA_alt in H. destruct H as (w & Huw & Hw).
    apply filter_In in Hw. apply InA_alt. exists w. tauto.
Qed.

Definition first_occurrence_runtime (log : Q -> Q -> Q)
    (corr : list Q -> list Q -> Q) : Runtime := {|
  set_iter := unique;
  set_iter_sound := unique_In_filter;
  set_iter_complete := unique_complete;
  set_iter_distinct := unique_distinct;
  math_log := log;
  pearson := corr
|}.

(** The examples use the gini criterion, or masks of zero variance under
    the correlation criterion: they call neither the logarithm nor the
    correlation coefficient ([examples_call_no_library_function] below),
    which are given the constant zero here. *)
#[local] Instance example_runtime : Runtime :=
  first_occurrence_runtime (fun _ _ => 0%Q) (fun _ _ => 0%Q).

Definition row_of (vs : list Z) : list Q := map inject_Z vs.

(** Six points on one feature, separated at 3 (the example of the
    specification), and its fitted instance. *)
Definition six_x : matrix := mkMatrix 1 (map (fun v => [inject_Z v]) [0; 1; 2; 3; 4; 5]).
Definition six_y : list Q := row_of [0; 0; 0; 1; 1; 1].
Definition six_fitted : classifier :=
  snd (fit six_x six_y 0 None (init 5 None "gini")).

(** Two identical columns: every threshold scores 1/2 on both. *)
Definition twin_x : matrix :=
  mkMatrix 2 [row_of [1; 1]; row_of [1; 1]; row_of [2; 2]; row_of [2; 2]].
Definition twin_y : list Q := row_of [0; 1; 0; 1].

(** Two identical rows with different labels. *)
Definition clash_x : matrix := mkMatrix 1 [row_of [0]; row_of [0]].
Definition clash_y : list Q := row_of [0; 1].

(** A column with a perfect split between two others. *)
Definition mid_x : matrix :=
  mkMatrix 3 [row_of [1; 0; 1]; row_of [1; 1; 1]; row_of [2; 0; 2]; row_of [2; 1; 2]].

(** ** Notions used to state the properties *)

(** The three names [weighted_criterion] dispatches on. *)
Definition known_criterion (name : string) : Prop :=
  name = "gini" \/ name = "entropy" \/ name = "neg_corr".

(** The update of [find_best_split] for a column [i] scored [r] with a
    non-zero value, and the scan of a run of such columns from index [k]. *)
Definition keep_best (acc : option nat * option Q * fnum) (i : nat)
    (r : fnum * Q) : option nat * option Q * fnum :=
  if fle (fst r) (snd acc) then (Some i, Some (snd r), fst r) else acc.

Fixpoint scan (rs : list (fnum * Q)) (k : nat)
    (acc : option nat * option Q * fnum) : option nat * option Q * fnum :=
  match rs with
  | [] => acc
  | r :: rest => scan rest (S k) (keep_best acc k r)
  end.

Definition enum_from {A : Type} (k : nat) (l : list A) : list (nat * A) :=
  combine (seq k (length l)) l.

(** Column [c] is scored [r] without an exception. *)
Definition scored `{RT : Runtime} (self : classifier) (y c : list Q)
    (r : fnum * Q) : Prop :=
  snd (split_on_feature self c y) = Ok r.

(** The lines printed while the columns [cols] are scored. *)
Definition printed `{RT : Runtime} (self : classifier) (y : list Q)
    (cols : list (list Q)) : list string :=
  concat (map (fun c => fst (split_on_feature self c y)) cols).

(** Two instances configured alike: they may differ in the counter
    [depth] and in [rules_] only. *)
Definition same_config (a b : classifier) : Prop :=
  max_depth a = max_depth b /\ feature_names a = feature_names b
  /\ class_weight a = class_weight b /\ criterion a = criterion b.

Definition or_else {A : Type} (f : option A) (d : option A) : option A :=
  match f with
  | Some v => Some v
  | None => d
  end.

(** The writes of [fit] on an instance: [k] increments of the counter and
    the rule list [f] assigned last, if any. *)
Definition frame (s : classifier) (k : Z) (f : option (list rule)) : classifier :=
  mkClassifier (depth s + k) (max_depth s) (feature_names s) (class_weight s)
               (criterion s) (or_else f (rules_ s)).

(** The invariant of the specification on one node, as a test: a split
    has [val_right >= val]. *)
Definition val_right_ge_val (r : rule) : bool :=
  match r with
  | Leaf _ _ => true
  | Split _ _ _ val _ val_right _ _ => fge val_right val
  end.


(** The contribution of one class to the gini index and to the entropy. *)
Definition gini_term (y : list Q) (c : Q) : Q :=
  Qred (Q_of_nat (count_eq y c) / Q_of_nat (length y))
  * Qred (1 - Qred (Q_of_nat (count_eq y c) / Q_of_nat (length y))).

Definition entropy_term `{RT : Runtime} (y : list Q) (c : Q) : Q :=
  Qred (Q_of_nat (count_eq y c) / Q_of_nat (length y))
  * entropy_from_counts (count_eq y c) (count_ne y c).

(** The outcome of scoring the threshold [value] on column [col]. *)
Definition score_at `{RT : Runtime} (self : classifier) (y col : list Q)
    (value : Q) : result (option fnum) :=
  snd (weighted_criterion self (map (fun v => Qlt_bool v value) col) y).

(** The two masks of a split, the orientation and the two sides as [fit]
    computes them, and the node it records. *)
Definition lt_mask (x : matrix) (col : nat) (cutoff : Q) : list bool :=
  map (fun v => Qlt_bool v cutoff) (column x col).
Definition ge_mask (x : matrix) (col : nat) (cutoff : Q) : list bool :=
  map (fun v => Qle_bool cutoff v) (column x col).
Definition flip_of (x : matrix) (y : list Q) (col : nat) (cutoff : Q) : bool :=
  fgt (np_mean (select y (lt_mask x col cutoff)))
      (np_mean (select y (ge_mask x col cutoff))).
Definition left_mask (x : matrix) (y : list Q) (col : nat) (cutoff : Q)
  : list bool :=
  if flip_of x y col cutoff then ge_mask x col cutoff else lt_mask x col cutoff.
Definition right_mask (x : matrix) (y : list Q) (col : nat) (cutoff : Q)
  : list bool :=
  if flip_of x y col cutoff then lt_mask x col cutoff else ge_mask x col cutoff.
Definition split_node (name : string) (x : matrix) (y : list Q) (col : nat)
    (cutoff : Q) : rule :=
  Split name col cutoff (np_mean y) (flip_of x y col cutoff)
        (np_mean (select y (right_mask x y col cutoff)))
        (length y) (length (select y (right_mask x y col cutoff))).

Definition is_split (r : rule) : bool :=
  match r with
  | Leaf _ _ => false
  | Split _ _ _ _ _ _ _ _ => true
  end.

(** A leaf, if there is one, is the last node. *)
Fixpoint leaf_only_last (rules : list rule) : Prop :=
  match rules with
  | [] => True
  | Leaf _ _ :: rest => rest = []
  | Split _ _ _ _ _ _ _ _ :: rest => leaf_only_last rest
  end.

Definition rule_num_pts (r : rule) : nat :=
  match r with
  | Leaf _ n => n
  | Split _ _ _ _ _ _ n _ => n
  end.

(** The counts along the list, starting from [n] points: every node
    records the points that reached it, and a split passes on those it
    does not keep on its right. *)
Fixpoint counts_chain (n : nat) (rules : list rule) : Prop :=
  match rules with
  | [] => True
  | r :: rest =>
      rule_num_pts r = n
      /\ match r with
         | Leaf _ _ => True
         | Split _ _ _ _ _ _ _ num_pts_right =>
             (num_pts_right <= n)%nat /\ counts_chain (n - num_pts_right) rest
         end
  end.

Definition names_column (names : list string) (width : nat) (r : rule) : Prop :=
  match r with
  | Leaf _ _ => True
  | Split name index_col _ _ _ _ _ _ =>
      (index_col < width)%nat /\ nth_error names index_col = Some name
  end.

Definition val_within (lo hi : Q) (r : rule) : Prop :=
  exists q, rule_val r = Fin q /\ (lo <= q)%Q /\ (q <= hi)%Q.

(** The rule list that [fit] assigns to [rules_]: the returned list when
    it starts with a split, none otherwise. *)
Definition published (rules : list rule) : option (list rule) :=
  match rules with
  | Split _ _ _ _ _ _ _ _ :: _ => Some rules
  | _ => None
  end.



(** The test of a split on a row: it can be evaluated and fails, or it
    can be evaluated and holds. *)
Definition passes (x : list Q) (r : rule) : Prop :=
  match r with
  | Leaf _ _ => False
  | Split _ index_col cutoff _ _ _ _ _ =>
      exists v, nth_error x index_col = Some v /\ Qle_bool cutoff v = false
  end.

Definition fires (x : list Q) (r : rule) : Prop :=
  match r with
  | Leaf _ _ => False
  | Split _ index_col cutoff _ _ _ _ _ =>
      exists v, nth_error x index_col = Some v /\ Qle_bool cutoff v = true
  end.

Definition index_below (width : nat) (r : rule) : Prop :=
  match r with
  | Leaf _ _ => True
  | Split _ index_col _ _ _ _ _ _ => (index_col < width)%nat
  end.

(** * Properties *)

(** ** The examples and the library functions *)

(** Whatever the logarithm and the correlation coefficient are, the
    examples evaluate as under [example_runtime]. *)
Lemma examples_call_no_library_function (log : Q -> Q -> Q)
    (corr : list Q -> list Q -> Q) :
  @fit (first_occurrence_runtime log corr) six_x six_y 0 None (init 5 None "gini")
    = fit six_x six_y 0 None (init 5 None "gini")
  /\ @find_best_split (first_occurrence_runtime log corr)
       (init 5 None "gini") twin_x twin_y
     = find_best_split (init 5 None "gini") twin_x twin_y
  /\ @find_best_split (first_occurrence_runtime log corr)
       (init 5 None "gini") mid_x twin_y
     = find_best_split (init 5 None "gini") mid_x twin_y
  /\ @fit (first_occurrence_runtime log corr) clash_x clash_y 0 None
       (init 2 None "neg_corr")
     = fit clash_x clash_y 0 None (init 2 None "neg_corr").
Proof. repeat split; vm_compute; reflexivity. Qed.

(** ** The order on floats *)

Lemma fle_not_nan (a b : fnum) : fle a b = true -> a <> NaN /\ b <> NaN.
Proof. destruct a, b; simpl; intros H; split; congruence. Qed.

Lemma fle_refl (a : fnum) : a <> NaN -> fle a a = true.
Proof.
  destruct a; simpl; try congruence; intros _.
  apply Qle_bool_iff, Qle_refl.
Qed.

Lemma fle_trans (a b c : fnum) :
  fle a b = true -> fle b c = true -> fle a c = true.
Proof.
  destruct a, b, c; simpl; try congruence.
  rewrite !Qle_bool_iff. apply Qle_trans.
Qed.

Lemma fle_total (a b : fnum) :
  a <> NaN -> b <> NaN -> fle a b = false -> fle b a = true.
Proof.
  destruct a, b; simpl; try congruence; intros _ _ H.
  apply Qle_bool_iff. apply Qlt_le_weak, Qnot_le_lt.
  intros Hle. apply Qle_bool_iff in Hle. congruence.
Qed.

(** ** Inference walks *)

(** A split that is not the last rule and whose test holds ends the walk
    with the [val] of that rule. *)
Lemma walk_triggered (name : string) (i : nat) (cutoff : Q) (val val_right : fnum)
    (flip : bool) (n m : nat) (r : rule) (rest : list rule) (x : list Q) (v : Q) :
  nth_error x i = Some v -> Qle_bool cutoff v = true ->
  walk (Split name i cutoff val flip val_right n m :: r :: rest) x = Ok val.
Proof. intros Hx Hv. simpl. now rewrite Hx, Hv. Qed.

(** C1, evaluated on the code: the instance fitted on the six points
    holds a split at cutoff 3 with [val = 1/2] and [val_right = 1],
    followed by a leaf; the row [5] satisfies the test of the split, and
    [predict_proba] gives it the probability 1/2, the [val] of the split,
    not its [val_right]. *)
Theorem C1_triggered_split_predicts_val :
  rules_ six_fitted
    = Some [Split "feat 0" 0 (3 # 1) (Fin (1 # 2)) false (Fin 1) 6 3;
            Leaf (Fin 0) 3]
  /\ predict_proba six_fitted (mkMatrix 1 [row_of [5]])
     = Ok [(Fin (1 # 2), Fin (1 # 2))].
Proof. split; vm_compute; reflexivity. Qed.

(** ** The weighted criterion *)

(** C2, as stated, fails: on a mask of length 1 and an empty label vector
    the call prints a line and returns [None]; nothing is raised. *)
Lemma C2_mismatch_returns_None_example :
  weighted_criterion (init 5 None "gini") [true] []
  = (["They have to be the same length"], Ok None).
Proof. reflexivity. Qed.

(** C2, amended: for every mask and label vector of different lengths,
    [weighted_criterion] prints "They have to be the same length" and
    returns [None]; it computes no criterion value and raises nothing. *)
Theorem C2_mismatch_prints_and_returns_None
    `{RT : Runtime} (self : classifier) (split_decision : list bool) (y_real : list Q) :
  length split_decision <> length y_real ->
  weighted_criterion self split_decision y_real
  = (["They have to be the same length"], Ok None).
Proof.
  intros H. unfold weighted_criterion.
  apply Nat.eqb_neq in H. now rewrite H.
Qed.

Lemma C2_mismatch_witness :
  length [true; false] <> length (row_of [1])
  /\ weighted_criterion (init 5 None "entropy") [true; false] (row_of [1])
     = (["They have to be the same length"], Ok None).
Proof.
  split; [simpl; lia|].
  apply (C2_mismatch_prints_and_returns_None
           (init 5 None "entropy") [true; false] (row_of [1])).
  simpl; lia.
Defined.

(** ** The base cases of [fit] *)

Section FitBaseCases.
Context `{RT : Runtime}.

Lemma all_same_cons (y0 : Q) (ys : list Q) :
  Forall (fun v => v == y0)%Q ys -> all_same (y0 :: ys) = true.
Proof.
  intros H. unfold all_same. apply forallb_forall.
  intros v [<-|Hv]; apply Qeq_bool_iff; [reflexivity|].
  rewrite Forall_forall in H. now apply H.
Qed.

Lemma fit_rec_empty (levels : nat) (x : matrix)
    (names : option (list string)) (self : classifier) :
  fit_rec levels x [] names self = (([], Ok []), set_feature_names x names self).
Proof. destruct levels; reflexivity. Qed.

Lemma fit_rec_pure (levels : nat) (x : matrix) (y0 : Q) (ys : list Q)
    (names : option (list string)) (self : classifier) :
  all_same (y0 :: ys) = true ->
  fit_rec levels x (y0 :: ys) names self
  = (([], Ok [Leaf (Fin y0) (S (length ys))]), set_feature_names x names self).
Proof.
  intros H. destruct levels; cbn [fit_rec length Nat.eqb]; now rewrite H.
Qed.

Lemma fit_rec_no_level (x : matrix) (y : list Q)
    (names : option (list string)) (self : classifier) :
  all_same y = false ->
  fit_rec 0 x y names self = (([], Ok []), set_feature_names x names self).
Proof.
  intros H. destruct y as [|y0 ys]; [reflexivity|].
  cbn [fit_rec length Nat.eqb]. now rewrite H.
Qed.

Lemma set_feature_names_max_depth (x : matrix) (names : option (list string))
    (self : classifier) :
  max_depth (set_feature_names x names self) = max_depth self.
Proof. unfold set_feature_names. now destruct (feature_names self), names. Qed.

Lemma set_feature_names_rules (x : matrix) (names : option (list string))
    (self : classifier) :
  rules_ (set_feature_names x names self) = rules_ self.
Proof. unfold set_feature_names. now destruct (feature_names self), names. Qed.

Lemma set_feature_names_criterion (x : matrix) (names : option (list string))
    (self : classifier) :
  criterion (set_feature_names x names self) = criterion self.
Proof. unfold set_feature_names. now destruct (feature_names self), names. Qed.

(** The three base cases, on the arguments of [fit]: the nodes returned,
    with nothing printed, and the instance left with the [rules_] it had. *)
Lemma fit_base_case (x : matrix) (y : list Q) (depth : Z)
    (names : option (list string)) (self : classifier) :
  y = [] \/ all_same y = true \/ max_depth self <= depth ->
  fit x y depth names self
  = (([], Ok (match y with
              | [] => []
              | y0 :: _ => if all_same y then [Leaf (Fin y0) (length y)] else []
              end)),
     set_feature_names x names self).
Proof.
  intros H. unfold fit. destruct y as [|y0 ys]; [apply fit_rec_empty|].
  destruct (all_same (y0 :: ys)) eqn:E; [now apply fit_rec_pure|].
  destruct H as [H|[H|H]]; try discriminate.
  replace (Z.to_nat (max_depth self - depth)) with 0%nat by lia.
  now apply fit_rec_no_level.
Qed.

(** The equation of the source: [fit] tests [depth >= self.max_depth]
    and calls itself on the left side at [depth + 1]. *)
Lemma fit_unfold (x : matrix) (y : list Q) (depth : Z)
    (names : option (list string)) (self : classifier) :
  fit x y depth names self
  = let self := set_feature_names x names self in
    if (length y =? 0)%nat then (ret [], self)
    else if all_same y then (ret [Leaf (Fin (hd 0%Q y)) (length y)], self)
    else if (depth >=? max_depth self)%Z then (ret [], self)
    else
      match find_best_split self x y with
      | (out, Raise e) => ((out, Raise e), self)
      | (out, Ok (Some col, Some cutoff, criterion_val)) =>
          let lt_mask := map (fun v => Qlt_bool v cutoff) (column x col) in
          let ge_mask := map (fun v => Qle_bool cutoff v) (column x col) in
          if negb (length lt_mask =? length y)%nat
          then ((out, Raise IndexError), self)
          else
            let flip := fgt (np_mean (select y lt_mask))
                            (np_mean (select y ge_mask)) in
            let y_left := if flip then select y ge_mask else select y lt_mask in
            let y_right := if flip then select y lt_mask else select y ge_mask in
            let x_left :=
              if flip then take_rows x ge_mask else take_rows x lt_mask in
            match nth_error (names_of self) col with
            | None => ((out, Raise IndexError), self)
            | Some name =>
                let node :=
                  Split name col cutoff (np_mean y) flip (np_mean y_right)
                        (length y) (length y_right) in
                match fit x_left y_left (depth + 1) None self with
                | ((out', Raise e), self') => ((out ++ out', Raise e), self')
                | ((out', Ok rest), self') =>
                    let par_node := node :: rest in
                    ((out ++ out', Ok par_node), publish self' par_node)
                end
            end
      | (out, Ok _) => ((out, Raise NumpyError), self)
      end.
Proof.
  unfold fit at 1. cbv zeta.
  destruct (Z.geb_spec depth (max_depth self)) as [Hd|Hd];
    rewrite set_feature_names_max_depth.
  - replace (Z.to_nat (max_depth self - depth)) with 0%nat by lia.
    replace (depth >=? max_depth self)%Z with true
      by (symmetry; rewrite Z.geb_leb; apply Z.leb_le; lia).
    reflexivity.
  - replace (Z.to_nat (max_depth self - depth))
      with (S (Z.to_nat (max_depth self - (depth + 1)))) by lia.
    replace (depth >=? max_depth self)%Z with false
      by (symmetry; rewrite Z.geb_leb; apply Z.leb_gt; lia).
    cbn [fit_rec]. unfold fit.
    now rewrite set_feature_names_max_depth.
Qed.

End FitBaseCases.

(** C7: for every non-empty label vector whose entries all equal [y0],
    whatever the features, the depth and the configuration, [fit] returns
    the single node [Leaf y0 (len y)], prints nothing and raises nothing. *)
Theorem C7_pure_labels_single_leaf
    `{RT : Runtime} (x : matrix) (y0 : Q) (ys : list Q) (depth : Z)
    (names : option (list string)) (self : classifier) :
  Forall (fun v => v == y0)%Q ys ->
  fst (fit x (y0 :: ys) depth names self)
  = ([], Ok [Leaf (Fin y0) (length (y0 :: ys))]).
Proof.
  intros H. apply all_same_cons in H.
  rewrite fit_base_case by auto. now rewrite H.
Qed.

Lemma C7_pure_labels_witness :
  Forall (fun v => v == 1)%Q (row_of [1; 1])
  /\ fst (fit six_x (row_of [1; 1; 1]) 0 None (init 5 None "gini"))
     = ([], Ok [Leaf (Fin 1) 3]).
Proof.
  split; [repeat constructor|].
  apply (C7_pure_labels_single_leaf six_x 1%Q (row_of [1; 1]) 0 None
           (init 5 None "gini")).
  repeat constructor.
Defined.

(** ** Prediction without a fitted rule list *)

Lemma predict_proba_unfitted (self : classifier) (n : nat) (x : list Q)
    (X : list (list Q)) :
  rules_ self = None ->
  predict_proba self (mkMatrix n (x :: X)) = Raise AttributeError
  /\ predict self (mkMatrix n (x :: X)) = Raise AttributeError.
Proof. intros H. unfold predict, predict_proba. simpl. now rewrite H. Qed.

Lemma predict_same_rules (self self' : classifier) (X : matrix) :
  rules_ self' = rules_ self ->
  predict_proba self' X = predict_proba self X
  /\ predict self' X = predict self X.
Proof. intros H. unfold predict, predict_proba. now rewrite H. Qed.

(** C8: for every label vector that is not pure, [fit] on an instance
    constructed with [max_depth = 0] returns the empty rule list, and on
    that instance [predict_proba] and [predict] raise (an attribute error,
    [rules_] never having been assigned) for every matrix [X] that has a
    row to predict. *)
Theorem C8_max_depth_zero_empty_then_predict_raises
    `{RT : Runtime} (x : matrix) (y : list Q) (names : option (list string))
    (cw : option (list (Q * Q))) (crit : string)
    (n : nat) (row : list Q) (X : list (list Q)) :
  all_same y = false ->
  let fitted := fit x y 0 names (init 0 cw crit) in
  fst fitted = ([], Ok [])
  /\ predict_proba (snd fitted) (mkMatrix n (row :: X)) = Raise AttributeError
  /\ predict (snd fitted) (mkMatrix n (row :: X)) = Raise AttributeError.
Proof.
  intros H fitted. subst fitted.
  rewrite fit_base_case by (right; right; simpl; lia).
  rewrite H. split.
  - now destruct y.
  - apply predict_proba_unfitted. simpl.
    now rewrite set_feature_names_rules.
Qed.

Lemma C8_max_depth_zero_witness :
  all_same six_y = false
  /\ fst (fit six_x six_y 0 None (init 0 None "gini")) = ([], Ok [])
  /\ predict_proba (snd (fit six_x six_y 0 None (init 0 None "gini")))
       (mkMatrix 1 [row_of [5]]) = Raise AttributeError
  /\ predict (snd (fit six_x six_y 0 None (init 0 None "gini")))
       (mkMatrix 1 [row_of [5]]) = Raise AttributeError.
Proof.
  split; [reflexivity|].
  apply (C8_max_depth_zero_empty_then_predict_raises six_x six_y None None
           "gini" 1 (row_of [5]) []).
  reflexivity.
Defined.

(** C10: when a call of [fit] ends in a base case (no labels, all labels
    equal, or [depth >= max_depth]) it returns a node list without
    assigning [rules_]: the attribute is what it was before the call.
    Hence on an instance that never had it, [predict_proba] and [predict]
    raise an attribute error on any matrix with a row, and on any
    instance they answer exactly as before the call, from the rule list of
    the earlier fit. *)
Theorem C10_base_case_leaves_rules_unassigned
    `{RT : Runtime} (x : matrix) (y : list Q) (depth : Z)
    (names : option (list string)) (self : classifier) :
  y = [] \/ all_same y = true \/ max_depth self <= depth ->
  let after := snd (fit x y depth names self) in
  (exists nodes, fst (fit x y depth names self) = ([], Ok nodes))
  /\ rules_ after = rules_ self
  /\ (rules_ self = None ->
      forall n row X,
        predict_proba after (mkMatrix n (row :: X)) = Raise AttributeError
        /\ predict after (mkMatrix n (row :: X)) = Raise AttributeError)
  /\ (forall X, predict_proba after X = predict_proba self X
                /\ predict after X = predict self X).
Proof.
  intros H after. subst after.
  rewrite fit_base_case by exact H. cbn [fst snd].
  pose proof (set_feature_names_rules x names self) as Hr.
  split; [eauto|]. split; [exact Hr|]. split.
  - intros Hnone n row X. apply predict_proba_unfitted. congruence.
  - intros X. now apply predict_same_rules.
Qed.

Lemma C10_base_case_witness :
  (row_of [1; 1; 1] = [] \/ all_same (row_of [1; 1; 1]) = true
   \/ max_depth six_fitted <= 0)
  /\ fst (fit six_x (row_of [1; 1; 1]) 0 None six_fitted)
     = ([], Ok [Leaf (Fin 1) 3])
  /\ rules_ (snd (fit six_x (row_of [1; 1; 1]) 0 None six_fitted))
     = rules_ six_fitted
  /\ predict_proba (snd (fit six_x (row_of [1; 1; 1]) 0 None six_fitted))
       (mkMatrix 1 [row_of [5]])
     = predict_proba six_fitted (mkMatrix 1 [row_of [5]]).
Proof.
  assert (H : row_of [1; 1; 1] = [] \/ all_same (row_of [1; 1; 1]) = true
              \/ max_depth six_fitted <= 0)
    by (right; left; reflexivity).
  split; [exact H|]. split; [vm_compute; reflexivity|].
  destruct (C10_base_case_leaves_rules_unassigned six_x (row_of [1; 1; 1]) 0
              None six_fitted H) as (_ & Hr & _ & Hp).
  split; [exact Hr|]. apply Hp.
Defined.

(** ** An unknown criterion name *)

Section UnknownCriterion.
Context `{RT : Runtime}.

Lemma weighted_criterion_unknown (self : classifier)
    (split_decision : list bool) (y_real : list Q) :
  ~ known_criterion (criterion self) ->
  length split_decision = length y_real ->
  weighted_criterion self split_decision y_real = ([], Raise UnboundLocalError).
Proof.
  intros Hk Hlen. unfold weighted_criterion, known_criterion in *.
  rewrite Hlen, Nat.eqb_refl. cbn [negb].
  destruct (String.eqb_spec (criterion self) "entropy"); [tauto|].
  destruct (String.eqb_spec (criterion self) "gini"); [tauto|].
  destruct (String.eqb_spec (criterion self) "neg_corr"); [tauto|].
  reflexivity.
Qed.

Lemma set_iter_nonempty (l : list Q) : l <> [] -> set_iter l <> [].
Proof.
  destruct l as [|v l]; [congruence|]. intros _ H.
  destruct (set_iter_complete (v :: l) v (or_introl eq_refl)) as (u & Hu & _).
  rewrite H in Hu. exact Hu.
Qed.

Lemma split_on_feature_unknown (self : classifier) (col y : list Q) :
  ~ known_criterion (criterion self) ->
  col <> [] -> length col = length y ->
  split_on_feature self col y = ([], Raise UnboundLocalError).
Proof.
  intros Hk Hne Hlen. unfold split_on_feature.
  destruct (set_iter col) as [|value rest] eqn:E.
  - now apply set_iter_nonempty in Hne.
  - cbn [split_loop].
    rewrite weighted_criterion_unknown by (rewrite ?length_map; assumption).
    reflexivity.
Qed.

Lemma find_best_split_unknown (self : classifier) (x : matrix) (y : list Q) :
  ~ known_criterion (criterion self) ->
  (0 < ncols x)%nat -> length (rows x) = length y -> y <> [] ->
  find_best_split self x y = ([], Raise UnboundLocalError).
Proof.
  intros Hk Hc Hlen Hy. unfold find_best_split, transpose, enumerate.
  destruct (ncols x) as [|k]; [lia|].
  cbn [seq map length combine best_loop].
  rewrite split_on_feature_unknown; try assumption; [reflexivity| |].
  - unfold column. destruct (rows x); [|discriminate].
    destruct y; [congruence|discriminate].
  - unfold column. now rewrite length_map.
Qed.

Lemma fit_rec_split_raises (levels : nat) (x : matrix) (y : list Q)
    (names : option (list string)) (self : classifier)
    (out : list string) (e : exn) :
  y <> [] -> all_same y = false ->
  find_best_split (set_feature_names x names self) x y = (out, Raise e) ->
  fit_rec (S levels) x y names self
  = ((out, Raise e), set_feature_names x names self).
Proof.
  intros Hy Hs Hf. destruct y as [|y0 ys]; [congruence|].
  cbn [fit_rec length Nat.eqb]. now rewrite Hs, Hf.
Qed.

End UnknownCriterion.

(** C4, as stated, fails: with the criterion name "foo" and three equal
    labels [fit] returns a leaf and raises nothing. *)
Lemma C4_unknown_criterion_returns_example :
  fst (fit six_x (row_of [1; 1; 1]) 0 None (init 5 None "foo"))
  = ([], Ok [Leaf (Fin 1) 3]).
Proof. vm_compute. reflexivity. Qed.

(** C4, amended: [fit] never checks the criterion name.  With a name
    outside gini, entropy and neg_corr (on a matrix with at least one
    column and one row per label) it returns normally in its three base
    cases -- no labels, equal labels, [depth >= max_depth] -- and in every
    other case the first evaluation of the weighted criterion raises an
    unbound-local error, which [fit] lets through; nothing is printed and
    [rules_] is not assigned. *)
Theorem C4_unknown_criterion_fails_at_first_scoring
    `{RT : Runtime} (x : matrix) (y : list Q) (depth : Z)
    (names : option (list string)) (self : classifier) :
  ~ known_criterion (criterion self) ->
  (0 < ncols x)%nat -> length (rows x) = length y ->
  fst (fit x y depth names self)
  = ([], if (length y =? 0)%nat then Ok []
         else if all_same y then Ok [Leaf (Fin (hd 0%Q y)) (length y)]
         else if (max_depth self <=? depth)%Z then Ok []
         else Raise UnboundLocalError)
  /\ rules_ (snd (fit x y depth names self)) = rules_ self.
Proof.
  intros Hk Hc Hlen.
  destruct y as [|y0 ys] eqn:Ey.
  { rewrite fit_base_case by auto. cbn. now rewrite set_feature_names_rules. }
  rewrite <- Ey in *. assert (Hy : y <> []) by (rewrite Ey; discriminate).
  replace (length y =? 0)%nat with false
    by (symmetry; apply Nat.eqb_neq; rewrite Ey; discriminate).
  destruct (all_same y) eqn:Es.
  { rewrite fit_base_case by auto. rewrite Es, Ey. cbn.
    now rewrite set_feature_names_rules. }
  destruct (Z.leb_spec (max_depth self) depth) as [Hd|Hd].
  { rewrite fit_base_case by auto. rewrite Es, Ey. cbn.
    now rewrite set_feature_names_rules. }
  unfold fit.
  replace (Z.to_nat (max_depth self - depth))
    with (S (Z.to_nat (max_depth self - depth - 1))) by lia.
  rewrite (fit_rec_split_raises _ x y names self [] UnboundLocalError);
    try assumption.
  - cbn. now rewrite set_feature_names_rules.
  - apply find_best_split_unknown; try assumption.
    now rewrite set_feature_names_criterion.
Qed.

Lemma C4_unknown_criterion_witness :
  ~ known_criterion (criterion (init 5 None "foo"))
  /\ (0 < ncols six_x)%nat
  /\ length (rows six_x) = length six_y
  /\ fst (fit six_x six_y 0 None (init 5 None "foo"))
     = ([], Raise UnboundLocalError).
Proof.
  assert (Hk : ~ known_criterion (criterion (init 5 None "foo")))
    by (intros [H|[H|H]]; discriminate H).
  split; [exact Hk|]. split; [simpl; lia|]. split; [reflexivity|].
  apply (C4_unknown_criterion_fails_at_first_scoring six_x six_y 0 None
           (init 5 None "foo") Hk); [simpl; lia|reflexivity].
Defined.

(** ** The scan of the columns *)

Section ColumnScan.
Context `{RT : Runtime}.
Variable self : classifier.
Variable y : list Q.

Lemma snd_bind_ok {A B : Type} (o : list string) (a : A) (k : A -> W B) :
  snd (bind (o, Ok a) k) = snd (k a).
Proof. unfold bind. now destruct (k a). Qed.

Lemma split_loop_le_sentinel (col values : list Q) :
  forall (m : fnum) (cut0 : Q) (v : fnum) (cut : Q),
    fle m (Fin sentinel) = true ->
    snd (split_loop self col y values m cut0) = Ok (v, cut) ->
    fle v (Fin sentinel) = true.
Proof.
  induction values as [|value rest IH]; intros m cut0 v cut Hm H.
  - simpl in H. now inversion H; subst.
  - cbn [split_loop] in H.
    destruct (weighted_criterion self _ y) as [o [[c|]|e]];
      [|simpl in H; discriminate|simpl in H; discriminate].
    rewrite snd_bind_ok in H.
    destruct (fle c m) eqn:E.
    + apply (IH c value v cut); [eapply fle_trans; eassumption|exact H].
    + now apply (IH m cut0 v cut).
Qed.

Lemma scored_le_sentinel (c : list Q) (r : fnum * Q) :
  scored self y c r -> fle (fst r) (Fin sentinel) = true.
Proof.
  destruct r as [v cut]. unfold scored, split_on_feature. intros H.
  eapply split_loop_le_sentinel; [|exact H]. reflexivity.
Qed.

Lemma enum_from_cons {A : Type} (k : nat) (c : A) (l : list A) :
  enum_from k (c :: l) = (k, c) :: enum_from (S k) l.
Proof. reflexivity. Qed.

(** Scanning a run of columns that are all scored with non-zero values
    amounts to [scan]; the loop then goes on with the columns after. *)
Lemma best_loop_scan (pre : list (list Q)) (rs : list (fnum * Q)) :
  Forall2 (scored self y) pre rs ->
  Forall (fun r => feq (fst r) (Fin 0) = false) rs ->
  forall (rest : list (list Q)) (k : nat) (col : option nat)
         (cutoff : option Q) (m : fnum),
    best_loop self (enum_from k (pre ++ rest)) y col cutoff m
    = (printed self y pre
         ++ fst (let '(col', cutoff', m') := scan rs k (col, cutoff, m) in
                 best_loop self (enum_from (k + length pre) rest) y col' cutoff' m'),
       snd (let '(col', cutoff', m') := scan rs k (col, cutoff, m) in
            best_loop self (enum_from (k + length pre) rest) y col' cutoff' m')).
Proof.
  induction 1 as [|c r pre rs Hc Hrs IH]; intros Hnz rest k col cutoff m.
  - cbn [app length scan printed map concat]. rewrite Nat.add_0_r.
    now destruct (best_loop _ _ _ _ _ _).
  - inversion Hnz as [|? ? Hr Hnz']; subst.
    cbn [app]. rewrite enum_from_cons. cbn [best_loop].
    unfold scored in Hc.
    destruct (split_on_feature self c y) as [o res] eqn:Es.
    cbn [snd] in Hc. subst res. destruct r as [v cut].
    cbn [fst] in Hr. unfold bind. rewrite Hr.
    cbn [scan]. unfold keep_best at 1 2. cbn [fst snd].
    unfold printed. cbn [map concat]. rewrite Es. cbn [fst].
    cbn [length]. rewrite <- Nat.add_succ_comm.
    destruct (fle v m); rewrite (IH Hnz'); unfold printed;
      now rewrite app_assoc.
Qed.

(** The outcome of [scan]: a value below the starting one and below every
    score; and either nothing was taken, or the column taken is the last
    one whose score is as low as the value returned. *)
Lemma scan_spec (rs : list (fnum * Q)) :
  forall (k : nat) (col : option nat) (cutoff : option Q) (m : fnum),
    fle m (Fin sentinel) = true ->
    Forall (fun r => fle (fst r) (Fin sentinel) = true) rs ->
    exists col' cutoff' m',
      scan rs k (col, cutoff, m) = (col', cutoff', m')
      /\ fle m' m = true
      /\ (forall j r, nth_error rs j = Some r -> fle m' (fst r) = true)
      /\ ((col', cutoff', m') = (col, cutoff, m)
          /\ (forall j r, nth_error rs j = Some r -> fle (fst r) m = false)
          \/ exists i cut,
              col' = Some (k + i)%nat /\ cutoff' = Some cut
              /\ nth_error rs i = Some (m', cut)
              /\ forall j r, nth_error rs j = Some r ->
                             fle (fst r) m' = true -> (j <= i)%nat).
Proof.
  induction rs as [|[v c] rest IH]; intros k col cutoff m Hm Hrs.
  - exists col, cutoff, m. cbn [scan]. split; [reflexivity|].
    split; [apply fle_refl; now apply fle_not_nan in Hm|].
    split; [intros [|j] r H; discriminate H|].
    left. split; [reflexivity|]. intros [|j] r H; discriminate H.
  - inversion Hrs as [|? ? Hv Hrest]; subst. cbn [fst] in Hv.
    cbn [scan]. unfold keep_best. cbn [fst snd].
    destruct (fle v m) eqn:E.
    + destruct (IH (S k) (Some k) (Some c) v Hv Hrest)
        as (col' & cutoff' & m' & Hs & Hle & Hall & Hlast).
      exists col', cutoff', m'. split; [exact Hs|].
      split; [eapply fle_trans; eassumption|].
      split.
      { intros [|j] r H; cbn in H; [inversion H; subst; exact Hle|eauto]. }
      right. destruct Hlast as [[Heq Hnone]|(i & cut & Hc & Hcut & Hi & Hmax)].
      * inversion Heq; subst. exists 0%nat, c.
        rewrite Nat.add_0_r. repeat split; try reflexivity.
        intros [|j] r H Hr; [lia|]. cbn in H.
        rewrite (Hnone j r H) in Hr. discriminate.
      * exists (S i), cut. rewrite <- Nat.add_succ_comm.
        repeat split; try assumption.
        intros [|j] r H Hr; [lia|]. cbn in H.
        apply le_n_S. eapply Hmax; eassumption.
    + destruct (IH (S k) col cutoff m Hm Hrest)
        as (col' & cutoff' & m' & Hs & Hle & Hall & Hlast).
      exists col', cutoff', m'. split; [exact Hs|].
      split; [exact Hle|].
      assert (Hmv : fle m v = true).
      { apply fle_total; try assumption;
          [now apply fle_not_nan in Hv|now apply fle_not_nan in Hm]. }
      split.
      { intros [|j] r H; cbn in H; [|eauto].
        inversion H; subst. eapply fle_trans; eassumption. }
      destruct Hlast as [[Heq Hnone]|(i & cut & Hc & Hcut & Hi & Hmax)].
      * left. split; [exact Heq|].
        intros [|j] r H; cbn in H; [inversion H; subst; exact E|eauto].
      * right. exists (S i), cut. rewrite <- Nat.add_succ_comm.
        repeat split; try assumption.
        intros [|j] r H Hr; [lia|]. cbn in H.
        apply le_n_S. eapply Hmax; eassumption.
Qed.

End ColumnScan.

Lemma Forall_exists_Forall2 {A B : Type} (P : A -> B -> Prop) (Q : B -> Prop)
    (l : list A) :
  Forall (fun a => exists b, P a b /\ Q b) l ->
  exists l', Forall2 P l l' /\ Forall Q l'.
Proof.
  induction 1 as [|a l (b & Hp & Hq) _ (l' & H2 & HQ)].
  - exists []. split; constructor.
  - exists (b :: l'). split; constructor; assumption.
Qed.

(** C5: let the columns of [x] be [pre ++ c :: post], every column of
    [pre] being scored with a non-zero value and [c] with a value equal to
    zero.  Then [find_best_split] returns the index of [c], the cutoff
    found for [c] and that zero value, having printed what the columns up
    to [c] printed and nothing more; and it returns and prints the same
    whatever columns stand to the right of [c]: none of them is scored. *)
Theorem C5_zero_criterion_short_circuits
    `{RT : Runtime} (self : classifier) (x : matrix) (y : list Q)
    (pre : list (list Q)) (c : list Q) (post : list (list Q))
    (o : list string) (v : fnum) (cut : Q) :
  transpose x = pre ++ c :: post ->
  Forall (fun p => exists r, scored self y p r /\ feq (fst r) (Fin 0) = false) pre ->
  split_on_feature self c y = (o, Ok (v, cut)) ->
  feq v (Fin 0) = true ->
  find_best_split self x y
  = (printed self y pre ++ o, Ok (Some (length pre), Some cut, v))
  /\ forall (x' : matrix) (post' : list (list Q)),
       transpose x' = pre ++ c :: post' ->
       find_best_split self x' y = find_best_split self x y.
Proof.
  intros Hx Hpre Hc Hv.
  destruct (Forall_exists_Forall2 _ _ _ Hpre) as (rs & H2 & Hnz).
  assert (Hany : forall x' post', transpose x' = pre ++ c :: post' ->
            find_best_split self x' y
            = (printed self y pre ++ o, Ok (Some (length pre), Some cut, v))).
  { intros x' post' Hx'. unfold find_best_split, enumerate.
    fold (enum_from 0 (transpose x')). rewrite Hx'.
    rewrite (best_loop_scan self y pre rs H2 Hnz).
    destruct (scan rs 0 (None, None, Fin sentinel)) as [[col' cutoff'] m'].
    rewrite enum_from_cons. cbn [best_loop]. rewrite Hc.
    unfold bind. rewrite Hv. cbn. now rewrite app_nil_r. }
  split; [now apply (Hany x post)|].
  intros x' post' Hx'. rewrite (Hany x' post' Hx'). symmetry.
  now apply (Hany x post).
Qed.

Lemma C5_zero_criterion_witness :
  transpose mid_x = [row_of [1; 1; 2; 2]] ++ row_of [0; 1; 0; 1] :: [row_of [1; 1; 2; 2]]
  /\ find_best_split (init 5 None "gini") mid_x twin_y
     = ([], Ok (Some 1%nat, Some (1 # 1), Fin 0)).
Proof.
  assert (Hx : transpose mid_x
               = [row_of [1; 1; 2; 2]] ++ row_of [0; 1; 0; 1] :: [row_of [1; 1; 2; 2]])
    by reflexivity.
  split; [exact Hx|].
  refine (proj1 (C5_zero_criterion_short_circuits (init 5 None "gini") mid_x twin_y
           [row_of [1; 1; 2; 2]] (row_of [0; 1; 0; 1]) [row_of [1; 1; 2; 2]]
           [] (Fin 0) (1 # 1) Hx _ _ _)).
  - constructor; [|constructor].
    exists (Fin (1 # 2), 2 # 1). split; vm_compute; reflexivity.
  - vm_compute. reflexivity.
  - reflexivity.
Defined.

(** C3, as stated, fails: the two columns of [twin_x] are both scored
    1/2, a non-zero value, and the column returned is column 1, not the
    lowest tied index 0. *)
Lemma C3_tie_returns_last_column_example :
  snd (split_on_feature (init 5 None "gini") (column twin_x 0) twin_y)
    = Ok (Fin (1 # 2), 2 # 1)
  /\ snd (split_on_feature (init 5 None "gini") (column twin_x 1) twin_y)
    = Ok (Fin (1 # 2), 2 # 1)
  /\ snd (find_best_split (init 5 None "gini") twin_x twin_y)
    = Ok (Some 1%nat, Some (2 # 1), Fin (1 # 2)).
Proof. repeat split; vm_compute; reflexivity. Qed.

(** C3, amended: when every column is scored with a non-zero value (no
    short-circuit) [find_best_split] returns a column whose score is
    minimal, with the cutoff found for it, and among the columns that
    attain that minimal score it returns the one of highest index: the
    test [<=] lets a later equal score replace an earlier one. *)
Theorem C3_ties_go_to_highest_column
    `{RT : Runtime} (self : classifier) (x : matrix) (y : list Q)
    (rs : list (fnum * Q)) :
  Forall2 (scored self y) (transpose x) rs ->
  Forall (fun r => feq (fst r) (Fin 0) = false) rs ->
  rs <> [] ->
  exists i cut v,
    snd (find_best_split self x y) = Ok (Some i, Some cut, v)
    /\ nth_error rs i = Some (v, cut)
    /\ (forall j r, nth_error rs j = Some r -> fle v (fst r) = true)
    /\ (forall j r, nth_error rs j = Some r -> fle (fst r) v = true ->
                    (j <= i)%nat).
Proof.
  intros H2 Hnz Hne.
  assert (Hs : Forall (fun r => fle (fst r) (Fin sentinel) = true) rs).
  { clear -H2. induction H2; constructor; [|assumption].
    eapply scored_le_sentinel; eassumption. }
  unfold find_best_split, enumerate. fold (enum_from 0 (transpose x)).
  rewrite <- (app_nil_r (transpose x)).
  rewrite (best_loop_scan self y _ rs H2 Hnz). cbn [snd].
  destruct (scan_spec rs 0 None None (Fin sentinel) eq_refl Hs)
    as (col' & cutoff' & m' & Hscan & _ & Hall & Hlast).
  rewrite Hscan. cbn [enum_from length seq combine best_loop ret snd].
  destruct Hlast as [[_ Hnone]|(i & cut & -> & -> & Hi & Hmax)].
  - destruct rs as [|r rs']; [congruence|].
    inversion Hs as [|? ? Hr _]; subst.
    rewrite (Hnone 0%nat r eq_refl) in Hr. discriminate.
  - exists i, cut, m'. cbn [Nat.add]. repeat split; assumption.
Qed.

Lemma C3_ties_witness :
  Forall2 (scored (init 5 None "gini") twin_y) (transpose twin_x)
          [(Fin (1 # 2), 2 # 1); (Fin (1 # 2), 2 # 1)]
  /\ exists i cut v,
       snd (find_best_split (init 5 None "gini") twin_x twin_y)
         = Ok (Some i, Some cut, v)
       /\ nth_error [(Fin (1 # 2), 2 # 1); (Fin (1 # 2), 2 # 1)] i = Some (v, cut)
       /\ (forall j r,
             nth_error [(Fin (1 # 2), 2 # 1); (Fin (1 # 2), 2 # 1)] j = Some r ->
             fle v (fst r) = true)
       /\ (forall j r,
             nth_error [(Fin (1 # 2), 2 # 1); (Fin (1 # 2), 2 # 1)] j = Some r ->
             fle (fst r) v = true -> (j <= i)%nat).
Proof.
  assert (H2 : Forall2 (scored (init 5 None "gini") twin_y) (transpose twin_x)
                 [(Fin (1 # 2), 2 # 1); (Fin (1 # 2), 2 # 1)])
    by (repeat constructor; vm_compute; reflexivity).
  split; [exact H2|].
  apply (C3_ties_go_to_highest_column (init 5 None "gini") twin_x twin_y _ H2).
  - repeat constructor.
  - discriminate.
Defined.

(** ** What [fit] reads and what it writes *)

Section Determinism.
Context `{RT : Runtime}.

Lemma weighted_criterion_config (a b : classifier) (mask : list bool) (y : list Q) :
  same_config a b -> weighted_criterion a mask y = weighted_criterion b mask y.
Proof.
  intros (_ & _ & Hw & Hc). unfold weighted_criterion, weighted_average.
  now rewrite Hw, Hc.
Qed.

Lemma split_loop_config (a b : classifier) (col y values : list Q) :
  same_config a b ->
  forall m cut, split_loop a col y values m cut = split_loop b col y values m cut.
Proof.
  intros H. induction values as [|value rest IH]; intros m cut; [reflexivity|].
  cbn [split_loop]. rewrite (weighted_criterion_config a b _ _ H).
  destruct (weighted_criterion b _ y) as [o [[c|]|e]]; try reflexivity.
  unfold bind. destruct (fle c m); now rewrite IH.
Qed.

Lemma best_loop_config (a b : classifier) (y : list Q) (cols : list (nat * list Q)) :
  same_config a b ->
  forall col cut m, best_loop a cols y col cut m = best_loop b cols y col cut m.
Proof.
  intros H. induction cols as [|[i c] rest IH]; intros col cut m; [reflexivity|].
  cbn [best_loop]. unfold split_on_feature.
  rewrite (split_loop_config a b _ _ _ H).
  destruct (split_loop b c y (set_iter c) (Fin sentinel) half) as [o [[v cur]|e]];
    try reflexivity.
  unfold bind. destruct (feq v (Fin 0)); [reflexivity|].
  destruct (fle v m); now rewrite IH.
Qed.

Lemma find_best_split_config (a b : classifier) (x : matrix) (y : list Q) :
  same_config a b -> find_best_split a x y = find_best_split b x y.
Proof. intros H. unfold find_best_split. now apply best_loop_config. Qed.

Lemma set_feature_names_some (x : matrix) (names : option (list string))
    (s : classifier) :
  feature_names (set_feature_names x names s) <> None.
Proof.
  unfold set_feature_names.
  destruct (feature_names s) eqn:E, names; cbn; congruence.
Qed.

Lemma set_feature_names_None_id (x : matrix) (s : classifier) :
  feature_names s <> None -> set_feature_names x None s = s.
Proof.
  unfold set_feature_names. destruct (feature_names s); [reflexivity|congruence].
Qed.

Lemma set_feature_names_config (x : matrix) (names : option (list string))
    (a b : classifier) :
  same_config a b ->
  same_config (set_feature_names x names a) (set_feature_names x names b).
Proof.
  unfold set_feature_names, same_config. destruct a, b. cbn.
  intros (-> & -> & -> & ->).
  destruct feature_names1, names; cbn; repeat split; reflexivity.
Qed.

Lemma frame_zero (s : classifier) : frame s 0 None = s.
Proof. destruct s. unfold frame. cbn. now rewrite Z.add_0_r. Qed.

Lemma publish_frame (s : classifier) (k : Z) (f : option (list rule))
    (par_node : list rule) :
  publish (frame s k f) par_node = frame s (k + 1) (Some par_node).
Proof. unfold publish, frame. cbn. now rewrite Z.add_assoc. Qed.

(** The outcome of [fit], the number of increments of the counter and the
    rule list assigned depend on the configuration only. *)
Lemma fit_rec_frame (levels : nat) :
  forall (x : matrix) (y : list Q) (names : option (list string))
         (a b : classifier),
    same_config (set_feature_names x names a) (set_feature_names x names b) ->
    exists k f,
      fit_rec levels x y names b
      = (fst (fit_rec levels x y names a), frame (set_feature_names x names b) k f)
      /\ snd (fit_rec levels x y names a) = frame (set_feature_names x names a) k f.
Proof.
  induction levels as [|levels IH]; intros x y names a b H.
  - exists 0, None. rewrite !frame_zero.
    destruct y as [|y0 ys]; [now rewrite !fit_rec_empty|].
    cbn [fit_rec length Nat.eqb]. now destruct (all_same (y0 :: ys)).
  - destruct y as [|y0 ys].
    { exists 0, None. now rewrite !frame_zero, !fit_rec_empty. }
    cbn [fit_rec length Nat.eqb].
    set (a' := set_feature_names x names a) in *.
    set (b' := set_feature_names x names b) in *.
    set (y := y0 :: ys).
    destruct (all_same y).
    { exists 0, None. now rewrite !frame_zero. }
    rewrite <- (find_best_split_config a' b' x y H).
    destruct (find_best_split a' x y) as [out [[[[col|] [cutoff|]] v]|e]];
      try (exists 0, None; now rewrite !frame_zero).
    match goal with
    | |- context [if negb ?c then _ else _] => destruct (negb c)
    end; [exists 0, None; now rewrite !frame_zero|].
    assert (Hn : names_of b' = names_of a')
      by (unfold names_of; destruct H as (_ & -> & _); reflexivity).
    rewrite Hn.
    destruct (nth_error (names_of a') col) as [name|];
      [|exists 0, None; now rewrite !frame_zero].
    match goal with
    | |- context [fit_rec levels ?xl ?yl None a'] =>
        destruct (IH xl yl None a' b') as (k & f & Hb & Ha);
        [now apply set_feature_names_config|];
        rewrite Hb; clear Hb;
        destruct (fit_rec levels xl yl None a') as [[out' [rest|e]] sa]
    end;
      cbn [fst snd] in *; subst sa;
      rewrite !set_feature_names_None_id
        by (subst a' b'; apply set_feature_names_some).
    + do 2 eexists. rewrite !publish_frame. split; reflexivity.
    + exists k, f. split; reflexivity.
Qed.

End Determinism.

Lemma same_config_refl (a : classifier) : same_config a a.
Proof. repeat split. Qed.

Lemma set_feature_names_frame (x : matrix) (names : option (list string))
    (s : classifier) (k : Z) (f : option (list rule)) :
  set_feature_names x names (frame (set_feature_names x names s) k f)
  = frame (set_feature_names x names s) k f.
Proof.
  destruct s as [d md fn cw crit r].
  unfold set_feature_names, frame. cbn. now destruct fn, names.
Qed.

Lemma or_else_idem {A : Type} (f d : option A) :
  or_else f (or_else f d) = or_else f d.
Proof. now destruct f. Qed.

(** C9: [fit] is a function of its arguments and of the configuration of
    the instance.  Called a second time with the same arguments on the
    instance the first call left, it prints, returns or raises exactly the
    same -- the same rule sequence, node for node and field for field --
    and leaves [rules_] as the first call left it; and two instances that
    are configured alike (whatever their counter [depth] and their
    [rules_]) give the same outcome.  The order in which a set of column
    values is visited is a function of the column ([set_iter]). *)
Theorem C9_fit_is_deterministic
    `{RT : Runtime} (x : matrix) (y : list Q) (depth : Z)
    (names : option (list string)) :
  (forall self : classifier,
      let first := fit x y depth names self in
      let second := fit x y depth names (snd first) in
      fst second = fst first /\ rules_ (snd second) = rules_ (snd first))
  /\ (forall (md : Z) (fnames : option (list string))
             (cw : option (list (Q * Q))) (crit : string)
             (d d' : Z) (r r' : option (list rule)),
         fst (fit x y depth names (mkClassifier d md fnames cw crit r))
         = fst (fit x y depth names (mkClassifier d' md fnames cw crit r'))).
Proof.
  split.
  - intros self first second. subst first second. unfold fit.
    set (n := Z.to_nat (max_depth self - depth)).
    destruct (fit_rec_frame n x y names self self (same_config_refl _))
      as (k & f & _ & H1).
    assert (Hmd : max_depth (snd (fit_rec n x y names self)) = max_depth self)
      by (rewrite H1; cbn; apply set_feature_names_max_depth).
    rewrite Hmd. fold n.
    destruct (fit_rec_frame n x y names self (snd (fit_rec n x y names self)))
      as (k2 & f2 & H2 & H2').
    { rewrite H1, set_feature_names_frame. repeat split. }
    rewrite H2. cbn [fst snd]. split; [reflexivity|].
    rewrite H2' at 2. rewrite H1 at 1.
    rewrite set_feature_names_frame. cbn [frame rules_].
    rewrite H1 in H2'. unfold frame in H2'.
    injection H2' as Hd Hr. rewrite Hr.
    now rewrite or_else_idem.
  - intros md fnames cw crit d d' r r'. unfold fit. cbn [max_depth].
    destruct (fit_rec_frame (Z.to_nat (md - depth)) x y names
                (mkClassifier d' md fnames cw crit r')
                (mkClassifier d md fnames cw crit r)) as (k & f & H & _).
    { apply set_feature_names_config. repeat split. }
    now rewrite H.
Qed.

(** ** Means of the two sides of a split *)

Local Open Scope Q_scope.

Lemma qsum_acc (l : list Q) (a : Q) :
  fold_left (fun s v => Qred (s + v)) l a == a + qsum l.
Proof.
  unfold qsum. revert a.
  induction l as [|v l IH]; intros a; cbn [fold_left].
  - ring.
  - rewrite IH, (IH (Qred (0 + v))), !Qred_correct. ring.
Qed.

Lemma qsum_cons (v : Q) (l : list Q) : qsum (v :: l) == v + qsum l.
Proof.
  unfold qsum at 1. cbn [fold_left]. rewrite qsum_acc, Qred_correct. ring.
Qed.

Lemma select_split_sum (y : list Q) :
  forall mask : list bool,
    length mask = length y ->
    qsum y == qsum (select y mask) + qsum (select y (invert mask))
    /\ length y
       = (length (select y mask) + length (select y (invert mask)))%nat.
Proof.
  induction y as [|v y IH]; intros [|b mask] Hlen; try discriminate.
  - split; reflexivity.
  - injection Hlen as Hlen. destruct (IH mask Hlen) as [Hs Hl].
    destruct b; cbn [select invert map negb length]; fold (invert mask);
      rewrite !qsum_cons, Hs; split; try ring; lia.
Qed.

Lemma Q_of_nat_pos (n : nat) : (0 < n)%nat -> 0 < Q_of_nat n.
Proof.
  intros H. unfold Q_of_nat, Qlt. cbn. lia.
Qed.

Lemma Q_of_nat_add (n m : nat) : Q_of_nat (n + m) == Q_of_nat n + Q_of_nat m.
Proof.
  unfold Q_of_nat. rewrite Nat2Z.inj_add, inject_Z_plus. reflexivity.
Qed.

Lemma Qpos_neq0 (n : Q) : 0 < n -> ~ n == 0.
Proof. intros H E. rewrite E in H. now apply Qlt_irrefl in H. Qed.





Lemma np_mean_nonempty (y : list Q) :
  y <> [] -> np_mean y = Fin (Qred (qsum y / Q_of_nat (length y))).
Proof.
  intros H. unfold np_mean, qdiv.
  destruct (Qeq_bool (Q_of_nat (length y)) 0) eqn:E; [|reflexivity].
  apply Qeq_bool_iff in E. destruct y; [congruence|].
  unfold Q_of_nat, Qeq in E. cbn in E. lia.
Qed.


Lemma length_pos_nonempty {A : Type} (l : list A) : l <> [] -> (0 < length l)%nat.
Proof. destruct l; [congruence|cbn; lia]. Qed.



Local Open Scope Z_scope.
Local Open Scope string_scope.
Local Open Scope list_scope.

(** ** The orientation of the split nodes *)

Lemma ge_mask_invert (cutoff : Q) (col : list Q) :
  map (fun v => Qle_bool cutoff v) col
  = invert (map (fun v => Qlt_bool v cutoff) col).
Proof.
  unfold invert, Qlt_bool. rewrite map_map. apply map_ext.
  intros v. now rewrite negb_involutive.
Qed.


(** C6, evaluated on the code: on two identical rows with labels 0 and 1
    and the correlation criterion, the mask of the only candidate cutoff
    is constant, its score is nan and the default cutoff 0.5 is kept; the
    right side [x >= 0.5] is empty, its mean is nan, and every split node
    returned has [val = 1/2] and [val_right = nan]: [val_right >= val] is
    false.  The same happens under gini when every class weight is zero. *)
Theorem C6_empty_right_side_breaks_orientation :
  fst (fit clash_x clash_y 0 None (init 2 None "neg_corr"))
  = ([], Ok [Split "feat 0" 0 (1 # 2) (Fin (1 # 2)) false NaN 2 0;
             Split "feat 0" 0 (1 # 2) (Fin (1 # 2)) false NaN 2 0])
  /\ forallb val_right_ge_val
       [Split "feat 0" 0 (1 # 2) (Fin (1 # 2)) false NaN 2 0;
        Split "feat 0" 0 (1 # 2) (Fin (1 # 2)) false NaN 2 0] = false
  /\ fst (fit clash_x clash_y 0 None
            (init 1 (Some [(0 # 1, 0 # 1); (1 # 1, 0 # 1)]) "gini"))
     = ([], Ok [Split "feat 0" 0 (1 # 2) (Fin (1 # 2)) false NaN 2 0]).
Proof. repeat split; vm_compute; reflexivity. Qed.

(** * Further properties of the code *)

(** ** Impurity of one node *)

Section NodeImpurity.
Context `{RT : Runtime}.
Local Open Scope Q_scope.

Lemma Qred_zero (q : Q) : q == 0 -> Qred q = 0.
Proof. intros H. now rewrite (Qred_complete _ _ H). Qed.

Lemma Qred_idem (q : Q) : Qred (Qred q) = Qred q.
Proof. apply Qred_complete, Qred_correct. Qed.

(** The accumulation [s += term] over the classes, as a sum. *)
Lemma fold_terms_sum (g : Q -> Q) (cs : list Q) :
  forall a, fold_left (fun s c => Qred (s + Qred (g c))) cs a
            == a + qsum (map g cs).
Proof.
  induction cs as [|c cs IH]; intros a; cbn [fold_left map].
  - unfold qsum. cbn. ring.
  - rewrite IH, qsum_cons, !Qred_correct. ring.
Qed.

Lemma fold_terms_reduced (g : Q -> Q) (cs : list Q) :
  forall a, Qred a = a ->
            Qred (fold_left (fun s c => Qred (s + Qred (g c))) cs a)
            = fold_left (fun s c => Qred (s + Qred (g c))) cs a.
Proof.
  induction cs as [|c cs IH]; intros a Ha; cbn [fold_left]; [exact Ha|].
  apply IH, Qred_idem.
Qed.

Lemma gini_criterion_sum (y : list Q) :
  gini_criterion y == qsum (map (gini_term y) (set_iter y)).
Proof.
  unfold gini_criterion. cbv zeta.
  change (fold_left (fun s c => Qred (s + Qred (gini_term y c))) (set_iter y) 0
          == qsum (map (gini_term y) (set_iter y))).
  rewrite fold_terms_sum. ring.
Qed.

Lemma gini_criterion_reduced (y : list Q) :
  Qred (gini_criterion y) = gini_criterion y.
Proof.
  unfold gini_criterion. cbv zeta.
  change (Qred (fold_left (fun s c => Qred (s + Qred (gini_term y c))) (set_iter y) 0)
          = fold_left (fun s c => Qred (s + Qred (gini_term y c))) (set_iter y) 0).
  now apply fold_terms_reduced.
Qed.

Lemma entropy_criterion_sum (y : list Q) :
  entropy_criterion y == qsum (map (entropy_term y) (set_iter y)).
Proof.
  unfold entropy_criterion. cbv zeta.
  change (fold_left (fun s c => Qred (s + Qred (entropy_term y c))) (set_iter y) 0
          == qsum (map (entropy_term y) (set_iter y))).
  rewrite fold_terms_sum. ring.
Qed.

Lemma entropy_criterion_reduced (y : list Q) :
  Qred (entropy_criterion y) = entropy_criterion y.
Proof.
  unfold entropy_criterion. cbv zeta.
  change (Qred (fold_left (fun s c => Qred (s + Qred (entropy_term y c))) (set_iter y) 0)
          = fold_left (fun s c => Qred (s + Qred (entropy_term y c))) (set_iter y) 0).
  now apply fold_terms_reduced.
Qed.

Lemma qsum_zero (g : Q -> Q) (cs : list Q) :
  (forall c, In c cs -> g c == 0) -> qsum (map g cs) == 0.
Proof.
  induction cs as [|c cs IH]; intros H; [reflexivity|].
  cbn [map]. rewrite qsum_cons, (H c (or_introl eq_refl)), IH; [ring|].
  intros c' Hc'. apply H. now right.
Qed.

Lemma all_same_elements (y : list Q) (c v : Q) :
  all_same y = true -> In c y -> In v y -> v == c.
Proof.
  destruct y as [|y0 ys]; [intros _ []|].
  unfold all_same. rewrite forallb_forall. intros H Hc Hv.
  apply H in Hc. apply H in Hv. apply Qeq_bool_iff in Hc, Hv.
  now rewrite Hc, Hv.
Qed.

Lemma count_eq_all (y : list Q) (c : Q) :
  (forall v, In v y -> v == c) -> count_eq y c = length y.
Proof.
  unfold count_eq. induction y as [|v y IH]; intros H; [reflexivity|].
  cbn [filter]. replace (Qeq_bool v c) with true
    by (symmetry; apply Qeq_bool_iff, H; now left).
  cbn [length]. f_equal. apply IH. intros w Hw. apply H. now right.
Qed.

Lemma count_ne_all (y : list Q) (c : Q) :
  (forall v, In v y -> v == c) -> count_ne y c = 0%nat.
Proof.
  unfold count_ne. induction y as [|v y IH]; intros H; [reflexivity|].
  cbn [filter]. replace (Qeq_bool v c) with true
    by (symmetry; apply Qeq_bool_iff, H; now left).
  cbn [negb]. apply IH. intros w Hw. apply H. now right.
Qed.

Lemma Q_of_nat_self_ratio (n : nat) : (0 < n)%nat -> Q_of_nat n / Q_of_nat n == 1.
Proof.
  intros H. field. now apply Qpos_neq0, Q_of_nat_pos.
Qed.

Lemma gini_pure_zero (y : list Q) :
  all_same y = true -> gini_criterion y = 0.
Proof.
  intros H. rewrite <- gini_criterion_reduced. apply Qred_zero.
  rewrite gini_criterion_sum. apply qsum_zero. intros c Hc.
  apply set_iter_sound in Hc. unfold gini_term.
  rewrite (count_eq_all y c) by (intros v Hv; now apply (all_same_elements y c v)).
  rewrite !Qred_correct, Q_of_nat_self_ratio; [ring|].
  destruct y; [destruct Hc|cbn; lia].
Qed.

(** X1: the gini index of a vector whose entries are all equal (as
    [all_same] tests it) is exactly 0, whatever the order in which its
    set of classes is visited. *)
Theorem gini_of_pure_labels_is_zero (y : list Q) :
  all_same y = true -> gini_criterion y = 0.
Proof. apply gini_pure_zero. Qed.

Lemma entropy_pure_zero (y : list Q) :
  all_same y = true -> entropy_criterion y = 0.
Proof.
  intros H. rewrite <- entropy_criterion_reduced. apply Qred_zero.
  rewrite entropy_criterion_sum. apply qsum_zero. intros c Hc.
  apply set_iter_sound in Hc. unfold entropy_term.
  rewrite (count_ne_all y c) by (intros v Hv; now apply (all_same_elements y c v)).
  unfold entropy_from_counts. rewrite orb_true_r. ring.
Qed.

(** X2: the entropy of a vector whose entries are all equal is exactly 0:
    the count of the other classes is zero, so the logarithm is never
    called. *)
Theorem entropy_of_pure_labels_is_zero (y : list Q) :
  all_same y = true -> entropy_criterion y = 0.
Proof. apply entropy_pure_zero. Qed.

End NodeImpurity.

Lemma gini_of_pure_labels_witness :
  all_same (row_of [1; 1; 1]) = true /\ gini_criterion (row_of [1; 1; 1]) = 0%Q.
Proof.
  split; [reflexivity|].
  apply (gini_of_pure_labels_is_zero (row_of [1; 1; 1])). reflexivity.
Defined.

Lemma entropy_of_pure_labels_witness :
  all_same (row_of [0; 0]) = true /\ entropy_criterion (row_of [0; 0]) = 0%Q.
Proof.
  split; [reflexivity|].
  apply (entropy_of_pure_labels_is_zero (row_of [0; 0])). reflexivity.
Defined.

Section GiniBounds.
Context `{RT : Runtime}.
Local Open Scope Q_scope.

Lemma count_eq_le (y : list Q) (c : Q) : (count_eq y c <= length y)%nat.
Proof. unfold count_eq. apply filter_length_le. Qed.

Lemma list_sum_cons (a : nat) (l : list nat) :
  list_sum (a :: l) = (a + list_sum l)%nat.
Proof. reflexivity. Qed.

Ltac sum_step :=
  cbn [map]; try change (list_sum []) with 0%nat; rewrite ?list_sum_cons.

Lemma hits_at_most_once (v : Q) (cs : list Q) :
  NoDupA Qeq cs ->
  (list_sum (map (fun c => if Qeq_bool v c then 1 else 0)%nat cs) <= 1)%nat.
Proof.
  induction 1 as [|c cs Hc Hnd IH]; sum_step; [lia|].
  destruct (Qeq_bool v c) eqn:E; [|lia].
  apply Qeq_bool_iff in E.
  assert (Hz : list_sum (map (fun c0 => if Qeq_bool v c0 then 1 else 0)%nat cs) = 0%nat).
  { clear IH Hnd. induction cs as [|d cs IH]; [reflexivity|].
    sum_step. destruct (Qeq_bool v d) eqn:Ed.
    - exfalso. apply Hc. left. apply Qeq_bool_iff in Ed. now rewrite <- E, Ed.
    - rewrite IH; [reflexivity|]. intros Hin. apply Hc. now right. }
  lia.
Qed.

(** Distinct classes count disjoint parts of the vector. *)
Lemma class_counts_le (y cs : list Q) :
  NoDupA Qeq cs -> (list_sum (map (count_eq y) cs) <= length y)%nat.
Proof.
  intros Hnd. induction y as [|v y IH].
  - replace (map (count_eq []) cs) with (map (fun _ : Q => 0%nat) cs)
      by (apply map_ext; reflexivity).
    clear. induction cs; sum_step; lia.
  - assert (Hsplit : list_sum (map (count_eq (v :: y)) cs)
                     = (list_sum (map (fun c => if Qeq_bool v c then 1 else 0)%nat cs)
                        + list_sum (map (count_eq y) cs))%nat).
    { clear. induction cs as [|c cs IH]; [reflexivity|].
      sum_step. rewrite IH. unfold count_eq at 1. cbn [filter].
      destruct (Qeq_bool v c); cbn [length]; fold (count_eq y c); lia. }
    rewrite Hsplit. pose proof (hits_at_most_once v cs Hnd). cbn [length]. lia.
Qed.

Lemma qsum_ratio (f : Q -> nat) (n : Q) (cs : list Q) :
  qsum (map (fun c => Q_of_nat (f c) / n) cs)
  == Q_of_nat (list_sum (map f cs)) / n.
Proof.
  induction cs as [|c cs IH]; sum_step.
  - unfold qsum, Q_of_nat. cbn. unfold Qdiv. ring.
  - rewrite qsum_cons, IH, Q_of_nat_add. unfold Qdiv. ring.
Qed.

Lemma qsum_le (f g : Q -> Q) (cs : list Q) :
  (forall c, In c cs -> f c <= g c) -> qsum (map f cs) <= qsum (map g cs).
Proof.
  induction cs as [|c cs IH]; intros H; [apply Qle_refl|].
  cbn [map]. rewrite !qsum_cons. apply Qplus_le_compat.
  - apply H. now left.
  - apply IH. intros c' Hc'. apply H. now right.
Qed.

Lemma Q_of_nat_le (n m : nat) : (n <= m)%nat -> Q_of_nat n <= Q_of_nat m.
Proof. intros H. unfold Q_of_nat, Qle. cbn. lia. Qed.

Lemma ratio_bounds (k n : nat) :
  (0 < n)%nat -> (k <= n)%nat ->
  0 <= Q_of_nat k / Q_of_nat n /\ Q_of_nat k / Q_of_nat n <= 1.
Proof.
  intros Hn Hk. pose proof (Q_of_nat_pos n Hn) as Hpos. split.
  - apply Qle_shift_div_l; [exact Hpos|]. rewrite Qmult_0_l.
    apply (Q_of_nat_le 0 k). lia.
  - apply Qle_shift_div_r; [exact Hpos|]. rewrite Qmult_1_l.
    now apply Q_of_nat_le.
Qed.

Lemma gini_term_bounds (y : list Q) (c : Q) :
  y <> [] ->
  0 <= gini_term y c
  /\ gini_term y c <= Q_of_nat (count_eq y c) / Q_of_nat (length y).
Proof.
  intros Hy. unfold gini_term. rewrite !Qred_correct.
  destruct (ratio_bounds (count_eq y c) (length y)
              (length_pos_nonempty y Hy) (count_eq_le y c)) as [H0 H1].
  set (p := Q_of_nat (count_eq y c) / Q_of_nat (length y)) in *.
  split; nra.
Qed.

Lemma gini_between_0_1 (y : list Q) :
  0 <= gini_criterion y /\ gini_criterion y <= 1.
Proof.
  rewrite gini_criterion_sum.
  destruct y as [|y0 ys] eqn:Ey.
  { assert (E : set_iter [] = []).
    { destruct (set_iter []) as [|c cs] eqn:E; [reflexivity|].
      destruct (set_iter_sound [] c); rewrite E; now left. }
    rewrite E. split; discriminate. }
  rewrite <- Ey. assert (Hy : y <> []) by (rewrite Ey; discriminate).
  split.
  - setoid_replace 0 with (qsum (map (fun _ => 0) (set_iter y)))
      by (symmetry; apply qsum_zero; reflexivity).
    apply qsum_le. intros c _. now apply gini_term_bounds.
  - apply Qle_trans
      with (qsum (map (fun c => Q_of_nat (count_eq y c) / Q_of_nat (length y))
                      (set_iter y))).
    + apply qsum_le. intros c _. now apply gini_term_bounds.
    + rewrite qsum_ratio.
      apply ratio_bounds; [now apply length_pos_nonempty|].
      apply class_counts_le, set_iter_distinct.
Qed.

(** X3: the gini index of any vector lies between 0 and 1. *)
Theorem gini_criterion_bounds (y : list Q) :
  0 <= gini_criterion y /\ gini_criterion y <= 1.
Proof. apply gini_between_0_1. Qed.

End GiniBounds.

(** ** The weighted criterion without class weights *)

Section Unweighted.
Context `{RT : Runtime}.
Local Open Scope Q_scope.

Lemma select_ones {A : Type} (y : list A) :
  forall mask, select (map (fun _ => 1) y) mask = map (fun _ => 1) (select y mask).
Proof.
  induction y as [|v y IH]; intros [|b mask]; try reflexivity.
  cbn [map select]. destruct b; cbn [map]; now rewrite IH.
Qed.

Lemma qsum_ones {A : Type} (y : list A) :
  qsum (map (fun _ => 1) y) == Q_of_nat (length y).
Proof.
  induction y as [|v y IH]; [reflexivity|].
  cbn [map length]. rewrite qsum_cons, IH.
  change (S (length y)) with (1 + length y)%nat.
  rewrite Q_of_nat_add. reflexivity.
Qed.

(** With [class_weight=None] the two weights are the shares of the two
    sides, and the score is their weighted average. *)
Lemma weighted_average_unweighted (self : classifier) (f : list Q -> Q)
    (mask : list bool) (y : list Q) :
  class_weight self = None -> length mask = length y -> y <> [] ->
  exists q,
    weighted_average self f mask y = Fin q
    /\ Qred q = q
    /\ q == Q_of_nat (length (select y mask)) / Q_of_nat (length y)
            * f (select y mask)
          + Q_of_nat (length (select y (invert mask))) / Q_of_nat (length y)
            * f (select y (invert mask)).
Proof.
  intros Hw Hlen Hy. unfold weighted_average. rewrite Hw. cbn [sample_weights].
  assert (Hn : Qeq_bool (qsum (map (fun _ => 1) y)) 0 = false).
  { destruct (Qeq_bool _ 0) eqn:E; [|reflexivity].
    apply Qeq_bool_iff in E. rewrite qsum_ones in E.
    pose proof (Q_of_nat_pos _ (length_pos_nonempty y Hy)). lra. }
  unfold qdiv. rewrite Hn. cbn [fmul fadd].
  eexists. split; [reflexivity|]. split; [apply Qred_idem|].
  rewrite !Qred_correct, !select_ones, !qsum_ones. reflexivity.
Qed.

Lemma weighted_criterion_gini (self : classifier) (mask : list bool) (y : list Q) :
  criterion self = "gini"%string -> length mask = length y ->
  weighted_criterion self mask y
  = ([], Ok (Some (weighted_average self gini_criterion mask y))).
Proof.
  intros Hc Hlen. unfold weighted_criterion.
  rewrite Hlen, Nat.eqb_refl, Hc. reflexivity.
Qed.

Lemma shares_sum (mask : list bool) (y : list Q) :
  length mask = length y -> y <> [] ->
  0 <= Q_of_nat (length (select y mask)) / Q_of_nat (length y)
  /\ 0 <= Q_of_nat (length (select y (invert mask))) / Q_of_nat (length y)
  /\ Q_of_nat (length (select y mask)) / Q_of_nat (length y)
     + Q_of_nat (length (select y (invert mask))) / Q_of_nat (length y) == 1.
Proof.
  intros Hlen Hy. destruct (select_split_sum y mask Hlen) as [_ Hl].
  pose proof (length_pos_nonempty y Hy) as Hpos.
  split; [apply ratio_bounds; [exact Hpos|lia]|].
  split; [apply ratio_bounds; [exact Hpos|lia]|].
  rewrite Hl at 1 2. rewrite <- Hl.
  setoid_replace (Q_of_nat (length (select y mask)) / Q_of_nat (length y)
                  + Q_of_nat (length (select y (invert mask))) / Q_of_nat (length y))
    with (Q_of_nat (length (select y mask) + length (select y (invert mask)))
          / Q_of_nat (length y))
    by (rewrite Q_of_nat_add; unfold Qdiv; ring).
  rewrite <- Hl. apply Q_of_nat_self_ratio. exact Hpos.
Qed.

Lemma weighted_gini_bounds
    (self : classifier) (mask : list bool) (y : list Q) :
  criterion self = "gini"%string -> class_weight self = None ->
  length mask = length y -> y <> [] ->
  exists q, weighted_criterion self mask y = ([], Ok (Some (Fin q)))
            /\ 0 <= q /\ q <= 1.
Proof.
  intros Hc Hw Hlen Hy. rewrite weighted_criterion_gini by assumption.
  destruct (weighted_average_unweighted self gini_criterion mask y Hw Hlen Hy)
    as (q & -> & _ & Hq).
  exists q. split; [reflexivity|].
  destruct (shares_sum mask y Hlen Hy) as (Hl & Hr & Hs).
  destruct (gini_between_0_1 (select y mask)) as [Hl0 Hl1].
  destruct (gini_between_0_1 (select y (invert mask))) as [Hr0 Hr1].
  rewrite Hq. split; nra.
Qed.

(** X4: under the gini criterion without class weights, for a mask of the
    length of a non-empty label vector, [weighted_criterion] prints
    nothing, raises nothing and returns a finite score between 0 and 1. *)
Theorem weighted_gini_is_finite_in_unit_interval
    (self : classifier) (mask : list bool) (y : list Q) :
  criterion self = "gini"%string -> class_weight self = None ->
  length mask = length y -> y <> [] ->
  exists q, weighted_criterion self mask y = ([], Ok (Some (Fin q)))
            /\ 0 <= q /\ q <= 1.
Proof. apply weighted_gini_bounds. Qed.

(** X5: when the mask separates the labels perfectly (each side passes the
    purity test of [fit]) the gini score and the entropy score without
    class weights are exactly 0, the value on which [find_best_split]
    stops its scan. *)
Theorem perfect_split_scores_zero
    (self : classifier) (mask : list bool) (y : list Q) :
  criterion self = "gini"%string \/ criterion self = "entropy"%string ->
  class_weight self = None ->
  length mask = length y -> y <> [] ->
  all_same (select y mask) = true ->
  all_same (select y (invert mask)) = true ->
  weighted_criterion self mask y = ([], Ok (Some (Fin 0))).
Proof.
  intros Hc Hw Hlen Hy Hl Hr. unfold weighted_criterion.
  rewrite Hlen, Nat.eqb_refl. cbn [negb].
  assert (Hz : forall f, f (select y mask) = 0 -> f (select y (invert mask)) = 0 ->
                 weighted_average self f mask y = Fin 0).
  { intros f Hfl Hfr.
    destruct (weighted_average_unweighted self f mask y Hw Hlen Hy)
      as (q & -> & Hred & Hq).
    f_equal. rewrite <- Hred. apply Qred_zero. rewrite Hq, Hfl, Hfr. ring. }
  destruct Hc as [Hc|Hc]; rewrite Hc; cbn [String.eqb Ascii.eqb Bool.eqb];
    cbn; rewrite Hz; try reflexivity;
    auto using gini_pure_zero, entropy_pure_zero.
Qed.

End Unweighted.

Lemma weighted_gini_witness :
  criterion (init 5 None "gini") = "gini" /\ class_weight (init 5 None "gini") = None
  /\ length [true; true; false; false] = length twin_y /\ twin_y <> []
  /\ exists q, weighted_criterion (init 5 None "gini") [true; true; false; false] twin_y
               = ([], Ok (Some (Fin q))) /\ (0 <= q)%Q /\ (q <= 1)%Q.
Proof.
  split; [reflexivity|]. split; [reflexivity|]. split; [reflexivity|].
  split; [discriminate|].
  apply (weighted_gini_is_finite_in_unit_interval (init 5 None "gini")
           [true; true; false; false] twin_y);
    [reflexivity|reflexivity|reflexivity|discriminate].
Defined.

Lemma perfect_split_witness :
  all_same (select twin_y [true; false; true; false]) = true
  /\ all_same (select twin_y (invert [true; false; true; false])) = true
  /\ weighted_criterion (init 5 None "entropy") [true; false; true; false] twin_y
     = ([], Ok (Some (Fin 0))).
Proof.
  split; [reflexivity|]. split; [reflexivity|].
  apply (perfect_split_scores_zero (init 5 None "entropy")
           [true; false; true; false] twin_y);
    [right; reflexivity|reflexivity|reflexivity|discriminate
    |reflexivity|reflexivity].
Defined.

(** ** The search over one column *)

Section OneColumn.
Context `{RT : Runtime}.
Variable self : classifier.
Variable y : list Q.

Lemma Qlt_bool_compat (v u u' : Q) : (u' == u)%Q -> Qlt_bool v u' = Qlt_bool v u.
Proof.
  intros H. unfold Qlt_bool. f_equal.
  destruct (Qle_bool u v) eqn:E.
  - apply Qle_bool_iff. apply Qle_bool_iff in E. now rewrite H.
  - destruct (Qle_bool u' v) eqn:E'; [|reflexivity].
    apply Qle_bool_iff in E'. rewrite H in E'. apply Qle_bool_iff in E'.
    congruence.
Qed.

Lemma score_at_compat (col : list Q) (u u' : Q) :
  (u' == u)%Q -> score_at self y col u' = score_at self y col u.
Proof.
  intros H. unfold score_at. do 2 f_equal.
  apply map_ext. intros v. now apply Qlt_bool_compat.
Qed.

Lemma split_loop_spec (col values : list Q) :
  forall (m : fnum) (cut0 : Q) (v : fnum) (cut : Q),
    m <> NaN ->
    snd (split_loop self col y values m cut0) = Ok (v, cut) ->
    fle v m = true
    /\ ((v, cut) = (m, cut0)
        /\ (forall u c, In u values -> score_at self y col u = Ok (Some c) ->
                        fle c m = false)
        \/ In cut values /\ score_at self y col cut = Ok (Some v))
    /\ (forall u c, In u values -> score_at self y col u = Ok (Some c) ->
                    c <> NaN -> fle v c = true).
Proof.
  induction values as [|value rest IH]; intros m cut0 v cut Hm H.
  - cbn in H. inversion H; subst.
    split; [now apply fle_refl|]. split; [left; split; [reflexivity|]|];
      intros u c [].
  - cbn [split_loop] in H.
    destruct (weighted_criterion self (map (fun v0 => Qlt_bool v0 value) col) y)
      as [o [[c|]|e]] eqn:Ew;
      [|cbn in H; discriminate|cbn in H; discriminate].
    rewrite snd_bind_ok in H.
    assert (Hval : score_at self y col value = Ok (Some c))
      by (unfold score_at; now rewrite Ew).
    destruct (fle c m) eqn:E.
    + assert (Hc : c <> NaN) by (now apply fle_not_nan in E).
      destruct (IH c value v cut Hc H) as (Hle & Hwhere & Hmin).
      split; [eapply fle_trans; eassumption|]. split.
      * right. destruct Hwhere as [[Heq _]|[Hin Hs]].
        -- inversion Heq; subst. split; [now left|exact Hval].
        -- split; [now right|exact Hs].
      * intros u c' [<-|Hu] Hs Hc'; [|now apply (Hmin u c')].
        rewrite Hval in Hs. inversion Hs; subst. exact Hle.
    + destruct (IH m cut0 v cut Hm H) as (Hle & Hwhere & Hmin).
      split; [exact Hle|]. split.
      * destruct Hwhere as [[Heq Hnone]|[Hin Hs]].
        -- left. split; [exact Heq|].
           intros u c' [<-|Hu] Hs; [|now apply (Hnone u c')].
           rewrite Hval in Hs. inversion Hs; subst. exact E.
        -- right. split; [now right|exact Hs].
      * intros u c' [<-|Hu] Hs Hc'; [|now apply (Hmin u c')].
        rewrite Hval in Hs. inversion Hs; subst.
        eapply fle_trans; [exact Hle|]. now apply fle_total.
Qed.

Lemma split_on_feature_spec (col : list Q) (v : fnum) (cut : Q) :
  snd (split_on_feature self col y) = Ok (v, cut) ->
  fle v (Fin sentinel) = true
  /\ (In cut col /\ score_at self y col cut = Ok (Some v)
      \/ (v, cut) = (Fin sentinel, half)
         /\ forall u c, In u col -> score_at self y col u = Ok (Some c) ->
                        fle c (Fin sentinel) = false)
  /\ (forall u c, In u col -> score_at self y col u = Ok (Some c) ->
                  c <> NaN -> fle v c = true).
Proof.
  unfold split_on_feature. intros H.
  destruct (split_loop_spec col (set_iter col) (Fin sentinel) half v cut
              ltac:(discriminate) H) as (Hle & Hwhere & Hmin).
  split; [exact Hle|]. split.
  - destruct Hwhere as [[Heq Hnone]|[Hin Hs]].
    + right. split; [exact Heq|]. intros u c Hu Hs.
      destruct (set_iter_complete col u Hu) as (u' & Hu' & Heq').
      apply (Hnone u' c Hu'). now rewrite (score_at_compat col u u' Heq').
    + left. split; [now apply set_iter_sound|exact Hs].
  - intros u c Hu Hs Hc.
    destruct (set_iter_complete col u Hu) as (u' & Hu' & Heq').
    apply (Hmin u' c Hu'); [|exact Hc].
    now rewrite (score_at_compat col u u' Heq').
Qed.

(** X6: when [split_on_feature] returns [(v, cut)], [v] is at most 1e10
    and at most the score of every value of the column (nan scores
    apart); and either [cut] is a value of the column whose score is
    [v], or no value scored 1e10 or less and the defaults [(1e10, 0.5)]
    are returned. *)
Theorem split_on_feature_returns_minimum (col : list Q) (v : fnum) (cut : Q) :
  snd (split_on_feature self col y) = Ok (v, cut) ->
  fle v (Fin sentinel) = true
  /\ (In cut col /\ score_at self y col cut = Ok (Some v)
      \/ (v, cut) = (Fin sentinel, half)
         /\ forall u c, In u col -> score_at self y col u = Ok (Some c) ->
                        fle c (Fin sentinel) = false)
  /\ (forall u c, In u col -> score_at self y col u = Ok (Some c) ->
                  c <> NaN -> fle v c = true).
Proof. apply split_on_feature_spec. Qed.

End OneColumn.

Lemma split_on_feature_minimum_witness :
  snd (split_on_feature (init 5 None "gini") (column mid_x 1) twin_y)
    = Ok (Fin 0, 1 # 1)
  /\ fle (Fin 0) (Fin sentinel) = true
  /\ In (1 # 1) (column mid_x 1).
Proof.
  assert (H : snd (split_on_feature (init 5 None "gini") (column mid_x 1) twin_y)
              = Ok (Fin 0, 1 # 1)) by (vm_compute; reflexivity).
  split; [exact H|].
  destruct (split_on_feature_returns_minimum (init 5 None "gini") twin_y
              (column mid_x 1) (Fin 0) (1 # 1) H) as (Hle & _ & _).
  split; [exact Hle|]. right. left. reflexivity.
Defined.

(** ** The column returned by the search *)

Section ChosenColumn.
Context `{RT : Runtime}.
Variable self : classifier.
Variable y : list Q.

Lemma best_loop_chosen (all : list (list Q)) (l : list (list Q)) :
  forall (k : nat) (col : option nat) (cutoff : option Q) (m : fnum)
         (res : option nat * option Q * fnum),
    (forall j c, nth_error l j = Some c -> nth_error all (k + j) = Some c) ->
    (col, cutoff, m) = (None, None, Fin sentinel)
    \/ (exists i cu c, col = Some i /\ cutoff = Some cu
                       /\ nth_error all i = Some c /\ scored self y c (m, cu)) ->
    snd (best_loop self (enum_from k l) y col cutoff m) = Ok res ->
    l = [] /\ res = (col, cutoff, m)
    \/ exists i cu c v, res = (Some i, Some cu, v)
                        /\ nth_error all i = Some c /\ scored self y c (v, cu).
Proof.
  induction l as [|c rest IH]; intros k col cutoff m res Hall Hacc H.
  - cbn in H. inversion H; subst. now left.
  - right. rewrite enum_from_cons in H. cbn [best_loop] in H.
    destruct (split_on_feature self c y) as [o [[v cu]|e]] eqn:Es;
      [|cbn in H; discriminate].
    assert (Hsc : scored self y c (v, cu)) by (unfold scored; now rewrite Es).
    assert (Hc : nth_error all k = Some c)
      by (rewrite <- (Nat.add_0_r k); now apply Hall).
    assert (Hrest : forall j c', nth_error rest j = Some c' ->
                                 nth_error all (S k + j) = Some c').
    { intros j c' Hj. rewrite Nat.add_succ_comm. now apply Hall. }
    rewrite snd_bind_ok in H.
    destruct (feq v (Fin 0)).
    { cbn in H. inversion H; subst. now exists k, cu, c, v. }
    destruct (fle v m) eqn:E.
    + destruct (IH (S k) (Some k) (Some cu) v res Hrest) as [[_ ->]|Hres];
        [right; now exists k, cu, c|exact H| |exact Hres].
      now exists k, cu, c, v.
    + destruct Hacc as [Hacc|Hacc].
      * inversion Hacc; subst.
        pose proof (scored_le_sentinel self y c (v, cu) Hsc) as Hle.
        cbn [fst] in Hle. congruence.
      * destruct (IH (S k) col cutoff m res Hrest (or_intror Hacc) H)
          as [[_ ->]|Hres]; [|exact Hres].
        destruct Hacc as (i & cu' & c' & -> & -> & Hi & Hs).
        now exists i, cu', c', m.
Qed.

Lemma find_best_split_chosen
    (x : matrix) (res : option nat * option Q * fnum) :
  (0 < ncols x)%nat ->
  snd (find_best_split self x y) = Ok res ->
  exists i cu v,
    res = (Some i, Some cu, v) /\ (i < ncols x)%nat
    /\ scored self y (column x i) (v, cu).
Proof.
  intros Hc H. unfold find_best_split, enumerate in H.
  fold (enum_from 0 (transpose x)) in H.
  destruct (best_loop_chosen (transpose x) (transpose x) 0 None None
              (Fin sentinel) res (fun j c Hj => Hj) (or_introl eq_refl) H)
    as [[Hnil _]|(i & cu & c & v & -> & Hi & Hs)].
  - unfold transpose in Hnil. apply map_eq_nil in Hnil.
    destruct (ncols x); [lia|discriminate].
  - exists i, cu, v. split; [reflexivity|].
    assert (Hlt : (i < ncols x)%nat).
    { assert (Hl : (i < length (transpose x))%nat)
        by (apply nth_error_Some; congruence).
      unfold transpose in Hl. now rewrite length_map, length_seq in Hl. }
    split; [exact Hlt|].
    unfold transpose in Hi. rewrite nth_error_map in Hi.
    rewrite nth_error_seq in Hi.
    replace (i <? ncols x)%nat with true in Hi
      by (symmetry; now apply Nat.ltb_lt).
    cbn in Hi. inversion Hi; subst. exact Hs.
Qed.

(** X7: on a matrix with at least one column, whenever [find_best_split]
    returns, it returns the index of a column of the matrix (never
    [None]) together with the value and the cutoff that
    [split_on_feature] gives for that very column. *)
Theorem find_best_split_returns_a_column
    (x : matrix) (res : option nat * option Q * fnum) :
  (0 < ncols x)%nat ->
  snd (find_best_split self x y) = Ok res ->
  exists i cu v,
    res = (Some i, Some cu, v) /\ (i < ncols x)%nat
    /\ scored self y (column x i) (v, cu).
Proof. apply find_best_split_chosen. Qed.

End ChosenColumn.

Lemma find_best_split_column_witness :
  (0 < ncols twin_x)%nat
  /\ exists i cu v,
       (Some 1%nat, Some (2 # 1), Fin (1 # 2)) = (Some i, Some cu, v)
       /\ (i < ncols twin_x)%nat
       /\ scored (init 5 None "gini") twin_y (column twin_x i) (v, cu).
Proof.
  split; [cbn; lia|].
  apply (find_best_split_returns_a_column (init 5 None "gini") twin_y twin_x);
    [cbn; lia|vm_compute; reflexivity].
Defined.

(** ** Features and labels of different lengths *)

Section MismatchedRows.
Context `{RT : Runtime}.

Lemma split_on_feature_mismatch (self : classifier) (col y : list Q) :
  col <> [] -> length col <> length y ->
  split_on_feature self col y
  = (["They have to be the same length"], Raise TypeError).
Proof.
  intros Hne Hlen. unfold split_on_feature.
  destruct (set_iter col) as [|value rest] eqn:E.
  - now apply set_iter_nonempty in Hne.
  - cbn [split_loop]. unfold weighted_criterion. rewrite length_map.
    apply Nat.eqb_neq in Hlen. rewrite Hlen. reflexivity.
Qed.

Lemma find_best_split_mismatch (self : classifier) (x : matrix) (y : list Q) :
  (0 < ncols x)%nat -> rows x <> [] -> length (rows x) <> length y ->
  find_best_split self x y
  = (["They have to be the same length"], Raise TypeError).
Proof.
  intros Hc Hr Hlen. unfold find_best_split, transpose, enumerate.
  destruct (ncols x) as [|k]; [lia|].
  cbn [seq map length combine best_loop].
  rewrite split_on_feature_mismatch; [reflexivity| |].
  - unfold column. destruct (rows x); [congruence|discriminate].
  - unfold column. now rewrite length_map.
Qed.

(** X8: when the matrix has rows and columns but not one row per label,
    and the labels call for a split (not all equal, [depth < max_depth]),
    [fit] prints "They have to be the same length" and then fails with a
    type error: the [None] returned by [weighted_criterion] is compared
    with the best score so far.  [rules_] is not assigned. *)
Theorem fit_on_mismatched_rows_raises_type_error
    (x : matrix) (y : list Q) (depth : Z) (names : option (list string))
    (self : classifier) :
  (0 < ncols x)%nat -> rows x <> [] -> length (rows x) <> length y ->
  all_same y = false -> depth < max_depth self ->
  fst (fit x y depth names self)
  = (["They have to be the same length"], Raise TypeError)
  /\ rules_ (snd (fit x y depth names self)) = rules_ self.
Proof.
  intros Hc Hr Hlen Hs Hd. unfold fit.
  replace (Z.to_nat (max_depth self - depth))
    with (S (Z.to_nat (max_depth self - depth - 1))) by lia.
  rewrite (fit_rec_split_raises _ x y names self
             ["They have to be the same length"] TypeError).
  - cbn. now rewrite set_feature_names_rules.
  - intros ->. discriminate.
  - exact Hs.
  - now apply find_best_split_mismatch.
Qed.

End MismatchedRows.

Lemma fit_on_mismatched_rows_witness :
  (0 < ncols six_x)%nat /\ rows six_x <> [] /\ length (rows six_x) <> length twin_y
  /\ all_same twin_y = false /\ 0 < max_depth (init 5 None "gini")
  /\ fst (fit six_x twin_y 0 None (init 5 None "gini"))
     = (["They have to be the same length"], Raise TypeError).
Proof.
  assert (H1 : (0 < ncols six_x)%nat) by (cbn; lia).
  assert (H2 : rows six_x <> []) by discriminate.
  assert (H3 : length (rows six_x) <> length twin_y) by (cbn; lia).
  assert (H4 : all_same twin_y = false) by reflexivity.
  assert (H5 : 0 < max_depth (init 5 None "gini")) by (cbn; lia).
  repeat (split; [assumption|]).
  apply (fit_on_mismatched_rows_raises_type_error six_x twin_y 0 None
           (init 5 None "gini") H1 H2 H3 H4 H5).
Defined.

(** ** One level of [fit] *)

Section FitLevels.
Context `{RT : Runtime}.

Lemma fit_rec_names_first (levels : nat) (x : matrix) (y : list Q)
    (names : option (list string)) (self : classifier) :
  fit_rec levels x y names self
  = fit_rec levels x y None (set_feature_names x names self).
Proof.
  destruct levels; cbn [fit_rec];
    now rewrite (set_feature_names_None_id x (set_feature_names x names self))
      by apply set_feature_names_some.
Qed.

(** How a call that returns a rule list came to it: a base case, or a
    split followed by the list of the left side. *)
Lemma fit_rec_inv (levels : nat) (x : matrix) (y : list Q) (cfg : classifier)
    (out : list string) (rules : list rule) (s' : classifier) :
  feature_names cfg <> None ->
  fit_rec levels x y None cfg = ((out, Ok rules), s') ->
  (out = [] /\ s' = cfg
   /\ (y = [] /\ rules = []
       \/ (exists y0 ys, y = y0 :: ys /\ all_same y = true
                         /\ rules = [Leaf (Fin y0) (length y)])
       \/ (y <> [] /\ all_same y = false /\ levels = 0%nat /\ rules = [])))
  \/ (exists levels' o col cutoff v name o' rest s1,
        levels = S levels' /\ y <> [] /\ all_same y = false
        /\ find_best_split cfg x y = (o, Ok (Some col, Some cutoff, v))
        /\ length (lt_mask x col cutoff) = length y
        /\ nth_error (names_of cfg) col = Some name
        /\ fit_rec levels' (take_rows x (left_mask x y col cutoff))
             (select y (left_mask x y col cutoff)) None cfg
           = ((o', Ok rest), s1)
        /\ rules = split_node name x y col cutoff :: rest
        /\ out = o ++ o' /\ s' = publish s1 rules).
Proof.
  intros Hn H.
  destruct y as [|y0 ys].
  { rewrite fit_rec_empty, set_feature_names_None_id in H by exact Hn.
    inversion H; subst. left. auto. }
  destruct (all_same (y0 :: ys)) eqn:Es.
  { rewrite fit_rec_pure, set_feature_names_None_id in H by assumption.
    inversion H; subst. left. split; [reflexivity|]. split; [reflexivity|].
    right. left. now exists y0, ys. }
  destruct levels as [|levels'].
  { rewrite fit_rec_no_level, set_feature_names_None_id in H by assumption.
    inversion H; subst. left. split; [reflexivity|]. split; [reflexivity|].
    right. right. repeat split; try reflexivity; try assumption. discriminate. }
  right. remember (y0 :: ys) as y eqn:Ey.
  assert (Hy : y <> []) by (subst y; discriminate).
  cbn [fit_rec] in H.
  replace (length y =? 0)%nat with false in H by (subst y; reflexivity).
  rewrite set_feature_names_None_id in H by exact Hn.
  rewrite Es in H. clear Ey.
  destruct (find_best_split cfg x y) as [o [[[[col|] [cutoff|]] v]|e]] eqn:Ef;
    try discriminate.
  fold (lt_mask x col cutoff) in H. fold (ge_mask x col cutoff) in H.
  fold (flip_of x y col cutoff) in H.
  match type of H with
  | context [if negb ?c then _ else _] => destruct (negb c) eqn:Elen
  end; [discriminate|].
  apply negb_false_iff, Nat.eqb_eq in Elen.
  destruct (nth_error (names_of cfg) col) as [name|] eqn:En; [|discriminate].
  assert (Hx : (if flip_of x y col cutoff then take_rows x (ge_mask x col cutoff)
                else take_rows x (lt_mask x col cutoff))
               = take_rows x (left_mask x y col cutoff))
    by (unfold left_mask; now destruct (flip_of x y col cutoff)).
  assert (Hl : (if flip_of x y col cutoff then select y (ge_mask x col cutoff)
                else select y (lt_mask x col cutoff))
               = select y (left_mask x y col cutoff))
    by (unfold left_mask; now destruct (flip_of x y col cutoff)).
  assert (Hr : (if flip_of x y col cutoff then select y (lt_mask x col cutoff)
                else select y (ge_mask x col cutoff))
               = select y (right_mask x y col cutoff))
    by (unfold right_mask; now destruct (flip_of x y col cutoff)).
  rewrite Hx, Hl, Hr in H.
  fold (split_node name x y col cutoff) in H.
  destruct (fit_rec levels' (take_rows x (left_mask x y col cutoff))
              (select y (left_mask x y col cutoff)) None cfg)
    as [[o' [rest|e]] s1] eqn:Erec; [|discriminate].
  exists levels', o, col, cutoff, v, name, o', rest, s1.
  injection H as Ho Hrules Hs.
  repeat split; try reflexivity; try assumption; try (symmetry; assumption).
  now subst.
Qed.

End FitLevels.

(** ** The shape of the rule list *)

Section RuleListShape.
Context `{RT : Runtime}.

(** Induction on the way [fit] builds its list. *)
Lemma fit_rec_rules_ind (cfg : classifier)
    (P : nat -> matrix -> list Q -> list rule -> Prop) :
  feature_names cfg <> None ->
  (forall n x y, y = [] \/ all_same y = false /\ n = 0%nat -> P n x y []) ->
  (forall n x y0 ys,
      all_same (y0 :: ys) = true ->
      P n x (y0 :: ys) [Leaf (Fin y0) (length (y0 :: ys))]) ->
  (forall n x y o col cutoff v name rest,
      y <> [] -> all_same y = false ->
      find_best_split cfg x y = (o, Ok (Some col, Some cutoff, v)) ->
      length (lt_mask x col cutoff) = length y ->
      nth_error (names_of cfg) col = Some name ->
      P n (take_rows x (left_mask x y col cutoff))
        (select y (left_mask x y col cutoff)) rest ->
      P (S n) x y (split_node name x y col cutoff :: rest)) ->
  forall n x y out rules s',
    fit_rec n x y None cfg = ((out, Ok rules), s') -> P n x y rules.
Proof.
  intros Hn Hnil Hleaf Hsplit. induction n as [|n IH]; intros x y out rules s' H;
    destruct (fit_rec_inv _ x y cfg out rules s' Hn H)
      as [(_ & _ & [[-> ->]|[(y0 & ys & -> & Hs & ->)|(Hy & Hs & Hl & ->)]])
         |(n' & o & col & cutoff & v & name & o' & rest & s1 & Hl & Hy & Hs
           & Hf & Hlen & Hname & Hrec & -> & _ & _)];
    try (apply Hnil; auto; fail); try (now apply Hleaf); try discriminate.
  injection Hl as <-. eapply Hsplit; try eassumption. eapply IH; eassumption.
Qed.

Lemma length_select_le {A : Type} (a : list A) :
  forall mask, (length (select a mask) <= length a)%nat.
Proof.
  induction a as [|v a IH]; intros [|b mask]; cbn [select length]; try lia.
  destruct b; cbn [length]; specialize (IH mask); lia.
Qed.

Lemma masks_complementary (x : matrix) (y : list Q) (col : nat) (cutoff : Q) :
  length (lt_mask x col cutoff) = length y ->
  length y = (length (select y (left_mask x y col cutoff))
              + length (select y (right_mask x y col cutoff)))%nat.
Proof.
  intros Hlen. unfold left_mask, right_mask, ge_mask.
  rewrite ge_mask_invert. fold (lt_mask x col cutoff).
  destruct (select_split_sum y (lt_mask x col cutoff) Hlen) as [_ Hl].
  destruct (flip_of x y col cutoff); lia.
Qed.

Lemma fit_rec_shape (cfg : classifier) :
  feature_names cfg <> None ->
  forall n x y out rules s',
    fit_rec n x y None cfg = ((out, Ok rules), s') ->
    leaf_only_last rules
    /\ (length (filter is_split rules) <= n)%nat
    /\ counts_chain (length y) rules.
Proof.
  intros Hn.
  apply (fit_rec_rules_ind cfg
           (fun n x y rules =>
              leaf_only_last rules
              /\ (length (filter is_split rules) <= n)%nat
              /\ counts_chain (length y) rules) Hn).
  - intros n x y _. cbn. repeat split. lia.
  - intros n x y0 ys _. cbn. repeat split. lia.
  - intros n x y o col cutoff v name rest Hy Hs Hf Hlen Hname (IH1 & IH2 & IH3).
    cbn [leaf_only_last split_node filter is_split length counts_chain rule_num_pts].
    split; [exact IH1|]. split; [lia|]. split; [reflexivity|].
    pose proof (masks_complementary x y col cutoff Hlen) as Hc.
    split; [lia|].
    replace (length y - length (select y (right_mask x y col cutoff)))%nat
      with (length (select y (left_mask x y col cutoff))) by lia.
    exact IH3.
Qed.

(** X9: in a rule list returned by [fit] every node except possibly the
    last is a split (a leaf can only end the list), and there are at most
    [max_depth - depth] splits. *)
Theorem fit_returns_splits_then_one_leaf
    (x : matrix) (y : list Q) (depth : Z) (names : option (list string))
    (self : classifier) (out : list string) (rules : list rule) :
  fst (fit x y depth names self) = (out, Ok rules) ->
  leaf_only_last rules
  /\ (length (filter is_split rules) <= Z.to_nat (max_depth self - depth))%nat
  /\ (length rules <= S (Z.to_nat (max_depth self - depth)))%nat.
Proof.
  unfold fit. rewrite fit_rec_names_first. intros H.
  destruct (fit_rec _ x y None _) as [[o r] s'] eqn:E. cbn in H.
  injection H as -> ->.
  destruct (fit_rec_shape _ (set_feature_names_some x names self) _ _ _ _ _ _ E)
    as (H1 & H2 & _).
  split; [exact H1|]. split; [exact H2|].
  clear -H1 H2. revert H2. generalize (Z.to_nat (max_depth self - depth)).
  induction rules as [|[v n|? ? ? ? ? ? ? ?] rest IH]; intros k H2; cbn in *;
    [lia|subst; cbn; lia|].
  destruct k; [lia|]. specialize (IH H1 k). lia.
Qed.

(** X10: the counts recorded in a rule list returned by [fit] account for
    every point: the first node has [num_pts = len(y)], and at every
    split [num_pts_right <= num_pts] and the next node, when there is
    one, has [num_pts - num_pts_right] points. *)
Theorem fit_counts_add_up
    (x : matrix) (y : list Q) (depth : Z) (names : option (list string))
    (self : classifier) (out : list string) (rules : list rule) :
  fst (fit x y depth names self) = (out, Ok rules) ->
  counts_chain (length y) rules.
Proof.
  unfold fit. rewrite fit_rec_names_first. intros H.
  destruct (fit_rec _ x y None _) as [[o r] s'] eqn:E. cbn in H.
  injection H as -> ->.
  now destruct (fit_rec_shape _ (set_feature_names_some x names self) _ _ _ _ _ _ E)
    as (_ & _ & H3).
Qed.

End RuleListShape.

Lemma fit_shape_witness :
  fst (fit six_x six_y 0 None (init 5 None "gini"))
    = ([], Ok [Split "feat 0" 0 (3 # 1) (Fin (1 # 2)) false (Fin 1) 6 3;
               Leaf (Fin 0) 3])
  /\ leaf_only_last [Split "feat 0" 0 (3 # 1) (Fin (1 # 2)) false (Fin 1) 6 3;
                     Leaf (Fin 0) 3]
  /\ (length (filter is_split
                [Split "feat 0" 0 (3 # 1) (Fin (1 # 2)) false (Fin 1) 6 3;
                 Leaf (Fin 0) 3])
      <= Z.to_nat (max_depth (init 5 None "gini") - 0))%nat.
Proof.
  assert (H : fst (fit six_x six_y 0 None (init 5 None "gini"))
              = ([], Ok [Split "feat 0" 0 (3 # 1) (Fin (1 # 2)) false (Fin 1) 6 3;
                         Leaf (Fin 0) 3])) by (vm_compute; reflexivity).
  split; [exact H|].
  destruct (fit_returns_splits_then_one_leaf six_x six_y 0 None
              (init 5 None "gini") _ _ H) as (H1 & H2 & _).
  split; [exact H1|exact H2].
Defined.

Lemma fit_counts_witness :
  fst (fit six_x six_y 0 None (init 5 None "gini"))
    = ([], Ok [Split "feat 0" 0 (3 # 1) (Fin (1 # 2)) false (Fin 1) 6 3;
               Leaf (Fin 0) 3])
  /\ counts_chain (length six_y)
       [Split "feat 0" 0 (3 # 1) (Fin (1 # 2)) false (Fin 1) 6 3; Leaf (Fin 0) 3].
Proof.
  assert (H : fst (fit six_x six_y 0 None (init 5 None "gini"))
              = ([], Ok [Split "feat 0" 0 (3 # 1) (Fin (1 # 2)) false (Fin 1) 6 3;
                         Leaf (Fin 0) 3])) by (vm_compute; reflexivity).
  split; [exact H|].
  apply (fit_counts_add_up six_x six_y 0 None (init 5 None "gini") _ _ H).
Defined.

(** ** What the nodes record *)

Section NodeContents.
Context `{RT : Runtime}.

Lemma find_best_split_no_column (cfg : classifier) (x : matrix) (y : list Q) :
  ncols x = 0%nat ->
  find_best_split cfg x y = ([], Ok (None, None, Fin sentinel)).
Proof.
  intros H. unfold find_best_split, transpose, enumerate. now rewrite H.
Qed.

Lemma chosen_column_in_range (cfg : classifier) (x : matrix) (y : list Q)
    (o : list string) (col : nat) (cutoff : Q) (v : fnum) :
  find_best_split cfg x y = (o, Ok (Some col, Some cutoff, v)) ->
  (col < ncols x)%nat /\ scored cfg y (column x col) (v, cutoff).
Proof.
  intros H. destruct (ncols x) as [|k] eqn:E.
  - rewrite find_best_split_no_column in H by exact E. discriminate.
  - assert (Hs : snd (find_best_split cfg x y) = Ok (Some col, Some cutoff, v))
      by now rewrite H.
    destruct (find_best_split_chosen cfg y x _ ltac:(lia) Hs)
      as (i & cu & v' & Heq & Hi & Hsc).
    inversion Heq; subst. rewrite <- E. now split.
Qed.

Lemma fit_rec_names_column (cfg : classifier) :
  feature_names cfg <> None ->
  forall n x y out rules s',
    fit_rec n x y None cfg = ((out, Ok rules), s') ->
    Forall (names_column (names_of cfg) (ncols x)) rules.
Proof.
  intros Hn.
  apply (fit_rec_rules_ind cfg
           (fun n x y rules => Forall (names_column (names_of cfg) (ncols x)) rules)
           Hn).
  - constructor.
  - repeat constructor.
  - intros n x y o col cutoff v name rest Hy Hs Hf Hlen Hname IH.
    constructor; [|exact IH].
    cbn. split; [|exact Hname]. now apply (chosen_column_in_range cfg x y o col cutoff v).
Qed.

Lemma default_name_at (width i : nat) (name : string) :
  nth_error (default_names width) i = Some name ->
  name = String.append "feat " (string_of_nat i).
Proof.
  unfold default_names. rewrite nth_error_map, nth_error_seq.
  destruct (i <? width)%nat; cbn; congruence.
Qed.

End NodeContents.

(** X11: every split of a rule list returned by [fit] tests a column of
    the matrix it was fitted on ([index_col < x.shape[1]]) and carries the
    name [self.feature_names[index_col]]; on an instance that had no
    names, called without names, that name is ["feat <index_col>"]. *)
Theorem fit_splits_name_their_column
    `{RT : Runtime} (x : matrix) (y : list Q) (depth : Z)
    (names : option (list string)) (self : classifier)
    (out : list string) (rules : list rule) :
  fst (fit x y depth names self) = (out, Ok rules) ->
  Forall (fun r =>
            match r with
            | Leaf _ _ => True
            | Split name index_col _ _ _ _ _ _ =>
                (index_col < ncols x)%nat
                /\ nth_error (names_of (set_feature_names x names self)) index_col
                   = Some name
                /\ (feature_names self = None -> names = None ->
                    name = String.append "feat " (string_of_nat index_col))
            end) rules.
Proof.
  unfold fit. rewrite fit_rec_names_first. intros H.
  destruct (fit_rec _ x y None _) as [[o r] s'] eqn:E. cbn in H.
  injection H as -> ->.
  pose proof (fit_rec_names_column _ (set_feature_names_some x names self)
                _ _ _ _ _ _ E) as Hall.
  eapply Forall_impl; [|exact Hall].
  intros [v n|name i cutoff val flip vr n npr]; [trivial|].
  cbn. intros [Hi Hname]. split; [exact Hi|]. split; [exact Hname|].
  intros Hnone ->. unfold set_feature_names, names_of in Hname.
  rewrite Hnone in Hname. cbn in Hname. now apply default_name_at in Hname.
Qed.

Lemma fit_splits_name_witness :
  fst (fit twin_x twin_y 0 None (init 1 None "gini"))
    = ([], Ok [Split "feat 1" 1 (2 # 1) (Fin (1 # 2)) false (Fin (1 # 2)) 4 2])
  /\ Forall (fun r =>
               match r with
               | Leaf _ _ => True
               | Split name index_col _ _ _ _ _ _ =>
                   (index_col < ncols twin_x)%nat
                   /\ nth_error (names_of (set_feature_names twin_x None
                                             (init 1 None "gini"))) index_col
                      = Some name
                   /\ (feature_names (init 1 None "gini") = None ->
                       @None (list string) = None ->
                       name = String.append "feat " (string_of_nat index_col))
               end)
            [Split "feat 1" 1 (2 # 1) (Fin (1 # 2)) false (Fin (1 # 2)) 4 2].
Proof.
  assert (H : fst (fit twin_x twin_y 0 None (init 1 None "gini"))
              = ([], Ok [Split "feat 1" 1 (2 # 1) (Fin (1 # 2)) false
                               (Fin (1 # 2)) 4 2])) by (vm_compute; reflexivity).
  split; [exact H|].
  apply (fit_splits_name_their_column twin_x twin_y 0 None (init 1 None "gini")
           _ _ H).
Defined.

(** ** The values of the nodes *)

Section NodeValues.
Context `{RT : Runtime}.
Local Open Scope Q_scope.

Lemma Forall_select {A : Type} (P : A -> Prop) (a : list A) :
  Forall P a -> forall mask, Forall P (select a mask).
Proof.
  induction 1 as [|v a Hv Ha IH]; intros [|b mask]; cbn [select];
    try constructor.
  destruct b; [constructor; [exact Hv|]|]; apply IH.
Qed.

Lemma qsum_between (lo hi : Q) (y : list Q) :
  Forall (fun v => lo <= v /\ v <= hi) y ->
  lo * Q_of_nat (length y) <= qsum y /\ qsum y <= hi * Q_of_nat (length y).
Proof.
  induction 1 as [|v y [Hl Hh] _ [IHl IHh]].
  - cbn [length]. change (Q_of_nat 0) with 0. change (qsum []) with 0.
    rewrite !Qmult_0_r. split; apply Qle_refl.
  - rewrite qsum_cons. cbn [length].
    change (S (length y)) with (1 + length y)%nat.
    rewrite Q_of_nat_add. change (Q_of_nat 1) with 1. split; lra.
Qed.

(** The mean of a non-empty vector is finite and lies between any bounds
    of its entries. *)
Lemma np_mean_between (lo hi : Q) (y : list Q) :
  y <> [] -> Forall (fun v => lo <= v /\ v <= hi) y ->
  exists q, np_mean y = Fin q /\ lo <= q /\ q <= hi.
Proof.
  intros Hy Hall. rewrite (np_mean_nonempty y Hy). eexists. split; [reflexivity|].
  rewrite Qred_correct.
  destruct (qsum_between lo hi y Hall) as [Hl Hh].
  pose proof (Q_of_nat_pos _ (length_pos_nonempty y Hy)) as Hpos.
  split; [now apply Qle_shift_div_l|now apply Qle_shift_div_r].
Qed.

Lemma fit_rec_vals_within (cfg : classifier) (lo hi : Q) :
  feature_names cfg <> None ->
  forall n x y out rules s',
    fit_rec n x y None cfg = ((out, Ok rules), s') ->
    Forall (fun v => lo <= v /\ v <= hi) y ->
    Forall (val_within lo hi) rules.
Proof.
  intros Hn.
  apply (fit_rec_rules_ind cfg
           (fun n x y rules =>
              Forall (fun v => lo <= v /\ v <= hi) y ->
              Forall (val_within lo hi) rules) Hn).
  - constructor.
  - intros n x y0 ys _ Hall. constructor; [|constructor].
    exists y0. split; [reflexivity|]. now inversion Hall.
  - intros n x y o col cutoff v name rest Hy Hs Hf Hlen Hname IH Hall.
    constructor; [|apply IH; now apply Forall_select].
    unfold val_within, split_node. cbn [rule_val].
    now apply np_mean_between.
Qed.


End NodeValues.


(** ** What a successful [fit] leaves on the instance *)

Section StateAfterFit.
Context `{RT : Runtime}.

Lemma fit_rec_state (cfg : classifier) :
  feature_names cfg <> None ->
  forall n x y out rules s',
    fit_rec n x y None cfg = ((out, Ok rules), s') ->
    s' = frame cfg (Z.of_nat (length (filter is_split rules))) (published rules).
Proof.
  intros Hn. induction n as [|n IH]; intros x y out rules s' H;
    destruct (fit_rec_inv _ x y cfg out rules s' Hn H)
      as [(_ & -> & [[_ ->]|[(y0 & ys & _ & _ & ->)|(_ & _ & _ & ->)]])
         |(n' & o & col & cutoff & v & name & o' & rest & s1 & Hl & _ & _
           & _ & _ & _ & Hrec & -> & _ & ->)];
    try (cbn; now rewrite frame_zero); try discriminate.
  injection Hl as <-. rewrite (IH _ _ _ _ _ Hrec), publish_frame.
  cbn [filter is_split split_node length published].
  f_equal. lia.
Qed.

(** X13: when [fit] returns a rule list, the instance is left with
    [rules_] set to that list if it starts with a split and untouched
    otherwise, with the counter [depth] increased by the number of splits
    (it is never reset), and with [max_depth], [class_weight] and
    [criterion] unchanged. *)
Theorem fit_state_after_success
    (x : matrix) (y : list Q) (depth0 : Z) (names : option (list string))
    (self : classifier) (out : list string) (rules : list rule) :
  fst (fit x y depth0 names self) = (out, Ok rules) ->
  let after := snd (fit x y depth0 names self) in
  rules_ after = or_else (published rules) (rules_ self)
  /\ depth after = depth self + Z.of_nat (length (filter is_split rules))
  /\ max_depth after = max_depth self
  /\ class_weight after = class_weight self
  /\ criterion after = criterion self.
Proof.
  unfold fit. rewrite fit_rec_names_first. intros H.
  destruct (fit_rec _ x y None _) as [[o r] s'] eqn:E. cbn in H.
  injection H as -> ->. cbn [snd].
  rewrite (fit_rec_state _ (set_feature_names_some x names self) _ _ _ _ _ _ E).
  unfold frame. cbn.
  rewrite set_feature_names_rules, set_feature_names_max_depth,
    set_feature_names_criterion.
  repeat split; try reflexivity.
  - unfold set_feature_names. now destruct (feature_names self), names.
  - unfold set_feature_names. now destruct (feature_names self), names.
Qed.

End StateAfterFit.

Lemma fit_state_witness :
  fst (fit six_x six_y 0 None six_fitted)
    = ([], Ok [Split "feat 0" 0 (3 # 1) (Fin (1 # 2)) false (Fin 1) 6 3;
               Leaf (Fin 0) 3])
  /\ depth (snd (fit six_x six_y 0 None six_fitted)) = depth six_fitted + 1.
Proof.
  assert (H : fst (fit six_x six_y 0 None six_fitted)
              = ([], Ok [Split "feat 0" 0 (3 # 1) (Fin (1 # 2)) false (Fin 1) 6 3;
                         Leaf (Fin 0) 3])) by (vm_compute; reflexivity).
  split; [exact H|].
  destruct (fit_state_after_success six_x six_y 0 None six_fitted _ _ H)
    as (_ & Hd & _).
  exact Hd.
Defined.

(** ** The orientation under the gini criterion *)

Section GiniOrientation.
Context `{RT : Runtime}.






End GiniOrientation.


(** ** Inference on a rule list *)

Lemma walk_passes (x : list Q) (r : rule) (rest : list rule) :
  passes x r -> rest <> [] -> walk (r :: rest) x = walk rest x.
Proof.
  destruct r as [|name i cutoff val flip vr n npr]; [intros []|].
  intros (v & Hv & Ht) Hne. destruct rest as [|r' rest]; [congruence|].
  cbn [walk]. now rewrite Hv, Ht.
Qed.

(** X15: [predict_proba] answers a row with the [val] of the first rule,
    the last apart, whose test [x[index_col] >= cutoff] holds, and with
    the [val] of the last rule when none does; no other field of a rule
    is ever returned. *)
Theorem walk_returns_val_of_first_firing_rule
    (x : list Q) (pre : list rule) :
  Forall (passes x) pre ->
  (forall last, walk (pre ++ [last]) x = Ok (rule_val last))
  /\ (forall r next post,
         fires x r -> walk (pre ++ r :: next :: post) x = Ok (rule_val r)).
Proof.
  induction 1 as [|p pre Hp Hpre [IH1 IH2]].
  - split; [reflexivity|].
    intros [|name i cutoff val flip vr n npr] next post; [intros []|].
    intros (v & Hv & Ht). cbn [app walk rule_val]. now rewrite Hv, Ht.
  - split.
    + intros last. cbn [app]. rewrite walk_passes; [apply IH1|exact Hp|].
      now destruct pre.
    + intros r next post Hr. cbn [app].
      rewrite walk_passes; [now apply IH2|exact Hp|]. now destruct pre.
Qed.

Lemma walk_first_firing_witness :
  Forall (passes (row_of [0]))
    [Split "feat 0" 0 (3 # 1) (Fin (1 # 2)) false (Fin 1) 6 3]
  /\ walk ([Split "feat 0" 0 (3 # 1) (Fin (1 # 2)) false (Fin 1) 6 3]
           ++ [Leaf (Fin 0) 3]) (row_of [0]) = Ok (Fin 0).
Proof.
  assert (H : Forall (passes (row_of [0]))
                [Split "feat 0" 0 (3 # 1) (Fin (1 # 2)) false (Fin 1) 6 3]).
  { constructor; [|constructor]. exists (0 # 1). split; reflexivity. }
  split; [exact H|].
  apply (proj1 (walk_returns_val_of_first_firing_rule (row_of [0]) _ H)
           (Leaf (Fin 0) 3)).
Defined.

Lemma walk_total (width : nat) (x : list Q) (rules : list rule) :
  leaf_only_last rules -> Forall (index_below width) rules ->
  (width <= length x)%nat ->
  exists p, walk rules x = Ok p
            /\ (rules = [] /\ p = Fin 0
                \/ exists r, In r rules /\ p = rule_val r).
Proof.
  intros Hshape Hidx Hw.
  induction rules as [|r rest IH]; [exists (Fin 0); now split; [|left]|].
  destruct rest as [|r' rest].
  { exists (rule_val r). split; [reflexivity|]. right. exists r. now split; [left|]. }
  destruct r as [|name i cutoff val flip vr n npr].
  { cbn in Hshape. discriminate. }
  inversion Hidx as [|? ? Hi Hrest]; subst. cbn in Hi, Hshape.
  destruct (nth_error x i) as [v|] eqn:Hv.
  - cbn [walk]. rewrite Hv. destruct (Qle_bool cutoff v).
    + exists val. split; [reflexivity|]. right. eexists. split; [now left|reflexivity].
    + destruct (IH Hshape Hrest) as (p & Hp & Hin). exists p. split; [exact Hp|].
      right. destruct Hin as [[Hnil _]|(r & Hr & ->)]; [discriminate|].
      exists r. split; [now right|reflexivity].
  - apply nth_error_None in Hv. lia.
Qed.

Lemma walk_rows_total (width : nat) (rules : list rule) (X : list (list Q)) :
  leaf_only_last rules -> Forall (index_below width) rules ->
  Forall (fun x => (width <= length x)%nat) X ->
  exists probs, walk_rows rules X = Ok probs
                /\ length probs = length X
                /\ Forall (fun p => rules = [] /\ p = Fin 0
                                    \/ exists r, In r rules /\ p = rule_val r)
                          probs.
Proof.
  intros Hshape Hidx. induction 1 as [|x X Hx HX (probs & Hp & Hl & Hall)].
  - exists []. repeat split. constructor.
  - destruct (walk_total width x rules Hshape Hidx Hx) as (p & Hw & Hin).
    exists (p :: probs). cbn [walk_rows]. rewrite Hw, Hp.
    split; [reflexivity|]. split; [cbn; now rewrite Hl|]. now constructor.
Qed.

(** X16: on an instance whose [rules_] is a list returned by [fit] for a
    matrix [x], [predict_proba] raises nothing for any [X] whose rows
    have at least as many entries as [x] has columns, and it returns one
    pair per row. *)
Theorem predict_proba_on_fitted_rules_is_total
    `{RT : Runtime} (x : matrix) (y : list Q) (depth : Z)
    (names : option (list string)) (self : classifier)
    (out : list string) (rules : list rule) (clf : classifier) (X : matrix) :
  fst (fit x y depth names self) = (out, Ok rules) ->
  rules_ clf = Some rules ->
  Forall (fun row => (ncols x <= length row)%nat) (rows X) ->
  exists proba, predict_proba clf X = Ok proba
                /\ length proba = length (rows X).
Proof.
  unfold fit. rewrite fit_rec_names_first. intros H Hr HX.
  destruct (fit_rec _ x y None _) as [[o r] s'] eqn:E. cbn in H.
  injection H as -> ->.
  destruct (fit_rec_shape _ (set_feature_names_some x names self) _ _ _ _ _ _ E)
    as (Hshape & _ & _).
  pose proof (fit_rec_names_column _ (set_feature_names_some x names self)
                _ _ _ _ _ _ E) as Hcol.
  assert (Hidx : Forall (index_below (ncols x)) rules).
  { eapply Forall_impl; [|exact Hcol]. intros [|]; cbn; tauto. }
  destruct (walk_rows_total (ncols x) rules (rows X) Hshape Hidx HX)
    as (probs & Hp & Hl & _).
  unfold predict_proba. rewrite Hr, Hp.
  destruct (rows X); [exists []; now split|].
  eexists. split; [reflexivity|]. now rewrite length_map.
Qed.

Lemma predict_proba_total_witness :
  rules_ six_fitted
    = Some [Split "feat 0" 0 (3 # 1) (Fin (1 # 2)) false (Fin 1) 6 3;
            Leaf (Fin 0) 3]
  /\ Forall (fun row => (ncols six_x <= length row)%nat)
            (rows (mkMatrix 1 [row_of [5]; row_of [0]]))
  /\ exists proba,
       predict_proba six_fitted (mkMatrix 1 [row_of [5]; row_of [0]]) = Ok proba
       /\ length proba = length (rows (mkMatrix 1 [row_of [5]; row_of [0]])).
Proof.
  assert (Hr : rules_ six_fitted
               = Some [Split "feat 0" 0 (3 # 1) (Fin (1 # 2)) false (Fin 1) 6 3;
                       Leaf (Fin 0) 3]) by (vm_compute; reflexivity).
  assert (HX : Forall (fun row => (ncols six_x <= length row)%nat)
                      (rows (mkMatrix 1 [row_of [5]; row_of [0]])))
    by (repeat constructor).
  split; [exact Hr|]. split; [exact HX|].
  apply (predict_proba_on_fitted_rules_is_total six_x six_y 0 None
           (init 5 None "gini") []
           [Split "feat 0" 0 (3 # 1) (Fin (1 # 2)) false (Fin 1) 6 3;
            Leaf (Fin 0) 3]
           six_fitted (mkMatrix 1 [row_of [5]; row_of [0]]));
    [|exact Hr|exact HX].
  vm_compute. reflexivity.
Defined.

Lemma walk_val_of_rule (rules : list rule) (x : list Q) (p : fnum) :
  walk rules x = Ok p ->
  rules = [] /\ p = Fin 0 \/ exists r, In r rules /\ p = rule_val r.
Proof.
  induction rules as [|r rest IH]; intros H.
  - cbn in H. inversion H. now left.
  - right. destruct rest as [|r' rest].
    { cbn in H. inversion H. exists r. now split; [left|]. }
    destruct r as [|name i cutoff val flip vr n npr]; [discriminate|].
    cbn [walk] in H. destruct (nth_error x i) as [v|]; [|discriminate].
    destruct (Qle_bool cutoff v).
    + inversion H; subst. eexists. split; [now left|reflexivity].
    + destruct (IH H) as [[Hnil _]|(r & Hr & ->)]; [discriminate|].
      exists r. split; [now right|reflexivity].
Qed.

Lemma walk_rows_vals (rules : list rule) (X : list (list Q)) :
  forall probs,
    walk_rows rules X = Ok probs ->
    Forall (fun p => rules = [] /\ p = Fin 0
                     \/ exists r, In r rules /\ p = rule_val r) probs.
Proof.
  induction X as [|x X IH]; intros probs H; cbn [walk_rows] in H.
  - inversion H. constructor.
  - destruct (walk rules x) as [p|e] eqn:Hw; [|discriminate].
    destruct (walk_rows rules X) as [ps|e]; [|discriminate].
    inversion H; subst. constructor; [now apply (walk_val_of_rule rules x)|].
    now apply IH.
Qed.

Lemma predict_proba_pairs (clf : classifier) (X : matrix)
    (proba : list (fnum * fnum)) :
  predict_proba clf X = Ok proba ->
  exists probs, proba = map (fun p => (fsub (Fin 1) p, p)) probs
                /\ (rows X = [] /\ probs = []
                    \/ exists rules, rules_ clf = Some rules
                                     /\ walk_rows rules (rows X) = Ok probs).
Proof.
  unfold predict_proba. intros H.
  destruct (rows X) as [|x0 X0] eqn:EX.
  { inversion H. exists []. split; [reflexivity|now left]. }
  destruct (rules_ clf) as [rules|]; [|discriminate].
  destruct (walk_rows rules (x0 :: X0)) as [probs|e] eqn:Hw; [|discriminate].
  inversion H. exists probs. split; [reflexivity|]. right. now exists rules.
Qed.

Lemma complement_not_both_above_half (p : fnum) :
  fgt (fsub (Fin 1) p) (Fin half) = true -> fgt p (Fin half) = false.
Proof.
  destruct p as [q| | |]; try reflexivity; try discriminate.
  unfold fgt, fsub, fneg, fadd, flt, Qlt_bool.
  rewrite negb_true_iff, negb_false_iff.
  intros H. apply Qle_bool_iff.
  destruct (Qlt_le_dec half q) as [Hlt|Hle]; [|exact Hle].
  exfalso. assert (Hc : Qle_bool (Qred (1 + Qred (- q))) half = true).
  { apply Qle_bool_iff. rewrite !Qred_correct. unfold half in *. lra. }
  congruence.
Qed.

(** X17: [predict] gives class 1 to exactly the rows whose probability
    [predict_proba(X)[:, 1]] is above 0.5, and class 0 to all others
    (a probability of exactly 0.5 included); it raises what
    [predict_proba] raises. *)
Theorem predict_thresholds_probability_at_half (clf : classifier) (X : matrix) :
  predict clf X
  = match predict_proba clf X with
    | Raise e => Raise e
    | Ok proba =>
        Ok (map (fun pr => if fgt (snd pr) (Fin half) then 1%nat else 0%nat) proba)
    end.
Proof.
  unfold predict. destruct (predict_proba clf X) as [proba|e] eqn:H;
    [|reflexivity].
  destruct (predict_proba_pairs clf X proba H) as (probs & -> & _).
  f_equal. rewrite !map_map. apply map_ext. intros p.
  unfold argmax_gt_half. cbn [fst snd].
  destruct (fgt (fsub (Fin 1) p) (Fin half)) eqn:E; [|reflexivity].
  now rewrite (complement_not_both_above_half p E).
Qed.

(** X18: when the labels lie in [[0, 1]], on an instance whose [rules_]
    is a list returned by [fit], every row of [predict_proba] is a pair
    [(1 - q, q)] of finite numbers with [q] in [[0, 1]]. *)
Theorem predicted_probabilities_in_unit_interval
    `{RT : Runtime} (x : matrix) (y : list Q) (depth : Z)
    (names : option (list string)) (self : classifier)
    (out : list string) (rules : list rule) (clf : classifier) (X : matrix)
    (proba : list (fnum * fnum)) :
  Forall (fun v => (0 <= v)%Q /\ (v <= 1)%Q) y ->
  fst (fit x y depth names self) = (out, Ok rules) ->
  rules_ clf = Some rules ->
  predict_proba clf X = Ok proba ->
  Forall (fun pr => exists q q',
              pr = (Fin q', Fin q) /\ (0 <= q)%Q /\ (q <= 1)%Q
              /\ (q' == 1 - q)%Q) proba.
Proof.
  intros Hy Hfit Hr Hp.
  assert (Hvals : Forall (val_within 0 1) rules).
  { revert Hfit. unfold fit. rewrite fit_rec_names_first. intros Hfit.
    destruct (fit_rec _ x y None _) as [[o r] s'] eqn:E. cbn in Hfit.
    injection Hfit as -> ->.
    exact (fit_rec_vals_within _ 0%Q 1%Q (set_feature_names_some x names self)
             _ _ _ _ _ _ E Hy). }
  destruct (predict_proba_pairs clf X proba Hp)
    as (probs & -> & [[_ ->]|(rules' & Hr' & Hw)]); [constructor|].
  rewrite Hr in Hr'. injection Hr' as <-.
  pose proof (walk_rows_vals rules (rows X) probs Hw) as Hall.
  apply Forall_map. eapply Forall_impl; [|exact Hall].
  intros p [[_ ->]|(r & Hin & ->)].
  - exists 0%Q, (Qred (1 + Qred (- 0))). repeat split; try discriminate.
  - rewrite Forall_forall in Hvals. destruct (Hvals r Hin) as (q & -> & H0 & H1).
    exists q, (Qred (1 + Qred (- q))). split; [reflexivity|].
    split; [exact H0|]. split; [exact H1|].
    rewrite !Qred_correct. ring.
Qed.

Lemma predicted_probabilities_witness :
  Forall (fun v => (0 <= v)%Q /\ (v <= 1)%Q) six_y
  /\ predict_proba six_fitted (mkMatrix 1 [row_of [5]])
     = Ok [(Fin (1 # 2), Fin (1 # 2))]
  /\ Forall (fun pr => exists q q',
                pr = (Fin q', Fin q) /\ (0 <= q)%Q /\ (q <= 1)%Q
                /\ (q' == 1 - q)%Q) [(Fin (1 # 2), Fin (1 # 2))].
Proof.
  assert (Hy : Forall (fun v => (0 <= v)%Q /\ (v <= 1)%Q) six_y)
    by (repeat constructor; discriminate).
  assert (Hp : predict_proba six_fitted (mkMatrix 1 [row_of [5]])
               = Ok [(Fin (1 # 2), Fin (1 # 2))]) by (vm_compute; reflexivity).
  split; [exact Hy|]. split; [exact Hp|].
  apply (predicted_probabilities_in_unit_interval six_x six_y 0 None
           (init 5 None "gini") []
           [Split "feat 0" 0 (3 # 1) (Fin (1 # 2)) false (Fin 1) 6 3;
            Leaf (Fin 0) 3]
           six_fitted (mkMatrix 1 [row_of [5]]) _ Hy);
    [vm_compute; reflexivity|vm_compute; reflexivity|exact Hp].
Defined.

(** ** When [fit] raises *)

Section FitRaises.
Context `{RT : Runtime}.

Lemma fit_rec_raise_state (levels : nat) :
  forall (x : matrix) (y : list Q) (names : option (list string))
         (self : classifier) (out : list string) (e : exn) (s' : classifier),
    fit_rec levels x y names self = ((out, Raise e), s') ->
    s' = set_feature_names x names self.
Proof.
  induction levels as [|levels IH]; intros x y names self out e s' H.
  - destruct y as [|y0 ys]; [rewrite fit_rec_empty in H; discriminate|].
    cbn [fit_rec length Nat.eqb] in H.
    destruct (all_same (y0 :: ys)); discriminate.
  - destruct y as [|y0 ys]; [rewrite fit_rec_empty in H; discriminate|].
    cbn [fit_rec length Nat.eqb] in H.
    destruct (all_same (y0 :: ys)); [discriminate|].
    destruct (find_best_split _ x (y0 :: ys)) as [o [[[[col|] [cutoff|]] v]|e']];
      try (now inversion H).
    match type of H with
    | context [if negb ?c then _ else _] => destruct (negb c)
    end; [now inversion H|].
    destruct (nth_error _ col) as [name|]; [|now inversion H].
    match type of H with
    | context [fit_rec levels ?xl ?yl None ?s] =>
        destruct (fit_rec levels xl yl None s) as [[o' [rest|e']] s1] eqn:Erec
    end; [discriminate|].
    inversion H; subst.
    rewrite (IH _ _ _ _ _ _ _ Erec).
    apply set_feature_names_None_id, set_feature_names_some.
Qed.

(** X19: when [fit] raises, at whatever level of the recursion, no rule
    list has been assigned and the counter has not moved: [rules_] and
    [depth] are what they were before the call. *)
Theorem fit_that_raises_publishes_nothing
    (x : matrix) (y : list Q) (depth0 : Z) (names : option (list string))
    (self : classifier) (out : list string) (e : exn) :
  fst (fit x y depth0 names self) = (out, Raise e) ->
  rules_ (snd (fit x y depth0 names self)) = rules_ self
  /\ depth (snd (fit x y depth0 names self)) = depth self.
Proof.
  unfold fit. intros H.
  destruct (fit_rec _ x y names self) as [[o r] s'] eqn:E. cbn in H.
  injection H as -> ->. cbn [snd].
  rewrite (fit_rec_raise_state _ _ _ _ _ _ _ _ E).
  split; [apply set_feature_names_rules|].
  unfold set_feature_names. now destruct (feature_names self), names.
Qed.

(** X20: names are set once.  On an instance that already has feature
    names, a call without names keeps them; if the column that the search
    returns has no name in that list (the matrix is wider than the one
    the names were made for), [fit] fails with an index error. *)
Theorem fit_with_stale_names_raises_index_error
    (x : matrix) (y : list Q) (depth0 : Z) (self : classifier)
    (old_names : list string) (o : list string) (col : nat) (cutoff : Q)
    (v : fnum) :
  feature_names self = Some old_names ->
  all_same y = false -> depth0 < max_depth self ->
  length (rows x) = length y ->
  find_best_split self x y = (o, Ok (Some col, Some cutoff, v)) ->
  (length old_names <= col)%nat ->
  fst (fit x y depth0 None self) = (o, Raise IndexError)
  /\ feature_names (snd (fit x y depth0 None self)) = Some old_names.
Proof.
  intros Hn Hs Hd Hrows Hf Hcol.
  assert (Hid : set_feature_names x None self = self)
    by (apply set_feature_names_None_id; congruence).
  assert (Hy : (length y =? 0)%nat = false)
    by (destruct y; [discriminate|reflexivity]).
  rewrite fit_unfold. cbv zeta. rewrite Hid, Hy, Hs.
  replace (depth0 >=? max_depth self) with false
    by (symmetry; rewrite Z.geb_leb; apply Z.leb_gt; lia).
  rewrite Hf. unfold column. rewrite !length_map, Hrows, Nat.eqb_refl.
  cbn [negb]. unfold names_of. rewrite Hn.
  replace (nth_error old_names col) with (@None string)
    by (symmetry; now apply nth_error_None).
  now split.
Qed.

End FitRaises.

Lemma fit_that_raises_witness :
  fst (fit six_x six_y 0 None (mkClassifier 7 5 None None "foo" (Some [])))
    = ([], Raise UnboundLocalError)
  /\ rules_ (snd (fit six_x six_y 0 None
                    (mkClassifier 7 5 None None "foo" (Some []))))
     = Some []
  /\ depth (snd (fit six_x six_y 0 None
                   (mkClassifier 7 5 None None "foo" (Some [])))) = 7.
Proof.
  assert (H : fst (fit six_x six_y 0 None
                     (mkClassifier 7 5 None None "foo" (Some [])))
              = ([], Raise UnboundLocalError)) by (vm_compute; reflexivity).
  split; [exact H|].
  apply (fit_that_raises_publishes_nothing six_x six_y 0 None
           (mkClassifier 7 5 None None "foo" (Some [])) [] UnboundLocalError H).
Defined.

Lemma fit_with_stale_names_witness :
  feature_names six_fitted = Some ["feat 0"]
  /\ fst (fit twin_x twin_y 0 None six_fitted) = ([], Raise IndexError).
Proof.
  assert (Hn : feature_names six_fitted = Some ["feat 0"])
    by (vm_compute; reflexivity).
  split; [exact Hn|].
  refine (proj1 (fit_with_stale_names_raises_index_error twin_x twin_y 0
                   six_fitted ["feat 0"] [] 1%nat (2 # 1) (Fin (1 # 2))
                   Hn _ _ _ _ _)).
  - reflexivity.
  - vm_compute. reflexivity.
  - reflexivity.
  - vm_compute. reflexivity.
  - cbn. lia.
Defined.
